(* ===== verification/_CoqProject ===== *)
-Q . S2P
Prelude.v
JsString.v
Posts.v
StoreSpec.v
Search.v
Format.v
NumberFormat.v
Fallback.v
Tilt.v
Render.v
App.v
Notify.v
Ui.v
Page.v
