(* ===== verification/Prelude.v ===== *)
(** * LinkUp: a verification development of [src/script.js]

    The program.  [src/script.js] is the whole client of a single-page
    social feed mock-up.  One class, [LinkUpApp], holds all state:
    - [currentTheme] (with its copy under the key ['theme'] of
      [localStorage]),
    - [posts], an array of post objects, newest first,
    - [currentUser], the signed-in user,
    and the DOM that the methods write: the feed ([#postsFeed]), the
    composer textarea ([#postText]), the notification toasts, the nav
    buttons and view sections, the image modal, follow buttons and the
    per-element tilt animation state kept in closures.  Every method runs
    to completion inside one browser event; the only interleaving is the
    order of events and of timer / animation-frame callbacks.

    Layout of the development (each file a component):
    - [Prelude] (this file): the scope [linkup_scope], the hint database
      [linkup], the tactics [bool_simpl] / [case_if], and the generic list
      helpers [find_first] / [update_first] that model
      [Array.prototype.find] and in-place mutation of the object it
      returns, and [set_nth], the write of the [i]-th element.
    - [JsString]: JS strings as lists of UTF-16 code units ([jstr]); the
      string primitives the code calls: [trim], [toLowerCase], [includes],
      [length], number-to-decimal conversion for template literals, and
      the regex class [\w].
    - [Posts]: the post store: [User], [Post], the sample data
      ([loadSampleData]), [createPost]'s store part ([new_post],
      [publish]) and [handlePostAction]'s store part ([apply_action],
      [post_action]); the well-formedness invariant [post_wf] /
      [store_wf] and its preservation; id freshness under a monotone
      clock; double toggling; the not-found paths.
    - [StoreSpec]: the store contract of the specification (section
      4.1) as a typeclass [PostStoreContract] with laws [PostStoreLaws]
      over an abstract store (natural counters, errors as a sum type);
      [create] is the relation [a_create_ok]: blank text is a
      [ValidationError], otherwise a post with any id not yet in the
      store.  The code's store ([list Post], [publish], [post_action])
      is an instance through the abstraction [alpha]: toggles and
      comments refine the contract on every well-formed store, and
      [publish] refines [create] exactly when [Date.now()] is not
      already an id (the law carries that hypothesis).
    - [Search]: [handleSearch] ([search_filter], [handleSearch]),
      its filter semantics, the length-2 guard and the [Proper] instance
      for case-insensitive query equivalence.
    - [Format]: [formatTime] (Module [TimeFormat]: the thresholds with
      [Math.floor] as [Z.div]; [toLocaleDateString] is a parameter) and
      [formatPostContent] (Module [ContentFormat]: the two global regex
      replacements [#\w+] and [@\w+] as scans with fuel = input length,
      which is enough since every step consumes a code unit).
    - [NumberFormat]: [formatNumber] and [updateUserProfile].  The double
      quotient [num / 1000] is computed exactly as the nearest double
      ([to_double]: the 53-bit significand rounded half to even) and
      [toFixed(1)] as ECMA-262 defines it ([fixed1_digits]); theorems:
      the printed value is within 0.05 of the quotient for counts below
      10^12, and from it that every count from 999951 to 999999 prints
      1000.0K; the spec's examples and the tie 1150 (printed 1.1K) are
      evaluated in [formatNumber_examples].
    - [Fallback]: [setupImageFallbacks] on one image (images do not
      interact): the [error] listeners it stacks on every render, the
      error event running them in order, and the theorem that the [src]
      changes at most once, to a 100- or 150-pixel avatar.
    - [Tilt]: [enableTiltEffects] on one element, in exact rationals:
      the closure of each call ([applyTilt], [resetTilt], [animate]),
      the closures stacked by repeated calls, the browser's frame queue
      and the [style.transform] written.  Theorems: the easing loop of a
      closure with deviation at most [(100/88)^n * 0.01] degrees stops
      within [n + 1] frames (each frame multiplies the deviation by
      [0.88] exactly; the fuel of [settle] is that bound), each closure
      has at most one pending frame, and [k] calls make one mouse move
      start [k] loops.
    - [Render]: [renderPosts] / [createPostElement] as a pure view model:
      a card record holding every value the template interpolates, in a
      Section over the locale function.
    - [App]: Module [Controller], the whole [LinkUpApp] state as a
      record ([posts], [currentUser], the feed, the textarea, the toasts,
      the clipboard, the share sheet and the number of
      [enableTiltEffects] calls, which [renderPosts] makes for a
      non-empty list) and the handlers [createPost],
      [handlePostAction], [sharePost], [handleSearch] as state-passing
      functions over an environment ([navigator.share] present or not,
      [location.href], the locale); events as a step function and runs as
      [fold_left]; invariants of every run (store reachable hence well
      formed, feed = a filter of the store, user unchanged) and the
      interaction findings (a post action replaces search results, a
      cleared search box keeps a filtered feed).
    - [Notify]: [showNotification] with its two [setTimeout] callbacks as
      an explicit timer queue ([pick]: earliest due time, FIFO on ties);
      the timer loop [drain] terminates (a weight of 2 per pending
      slide-out and 1 per pending removal decreases at each tick; the
      fuel given is that weight) and removes every toast from the page,
      from any interleaving of notifications and timer ticks.
    - [Ui]: Module [Theme] (the constructor's [localStorage] read,
      [setupTheme], [toggleTheme]: a step relation over toggles and page
      reloads with the invariant that the page, the icon and the storage
      agree), Module [Nav] ([setActiveNav]), Module [Follow]
      ([handleFollow]), Module [Keyboard] ([handleKeyboardShortcuts]) and
      Module [Modal] ([openModal], [closeModal], the backdrop listener).
    - [Page]: the composition.  The page state joins the controller's
      with the theme, nav, modal, follow buttons, focus and the browser
      requests in flight; [pstep] runs one listener of
      [setupEventListeners] (or a card's inline [onclick], or a file-read
      or position callback of the composer helpers [addImageToPost],
      [addLocationToPost]; [addEmojiToPost] with the random draw as a
      parameter) by the components' handlers; [page_init] is the
      constructor with [init].  Theorems: the invariants of every run
      from start-up (store well formed, feed current, theme consistent),
      no listener but Publish and the card buttons writes the store, a
      card button acts on its own post (the id printed into its
      [onclick] source reads back as the id, [parse_int_literal]), each
      Home click stacks two tilt closures, and the composer helpers'
      notifications, including the silent geolocation failure.

    How the parts interact: [Page.pstep] calls [Controller.step] for the
    post events, which calls [PostStore.publish] / [post_action],
    [Search.handleSearch] and [Render.renderPosts]; the correspondence of
    the store with the specification's contract is [StoreSpec]; the
    timers of the toasts the handlers append are [Notify]; the tilt
    closures the renders stack are [Tilt]; the image listeners they
    stack are [Fallback].  [Notify], [Tilt] and [Fallback] model one
    toast queue, one element and one image: each of those is touched by
    its own callbacks only.

    Numbers.  JS numbers are doubles; every counter, id and timestamp the
    code handles is an integer well below 2^53, where double arithmetic
    is exact, so they are modelled as [Z].  The one inexact operation,
    the division in [formatNumber], is modelled bit-exactly (see
    [NumberFormat]).  Integers are printed in decimal by [digits_aux]
    with fuel [1 + log2 n], at least the number of decimal digits.

    Simplifications, each harmless for the theorems stated: [createPost]
    reads [Date.now()] for the id and [new Date()] for the timestamp;
    [new_post] uses one clock value for both.  [renderPosts] calls
    [new Date()] once per card in [formatTime]; the model renders all
    cards at one time [now].  The fallback listener reads the image's
    widths when the error fires; the model keeps the widths fixed over
    the image's life.  The toast timers advance the clock only through
    ticks, so a notification is shown at the last tick time.  The page
    accepts a file-read callback without a preceding picker click, an
    over-approximation of the events (the invariants hold for more
    runs).

    Strings.  A JS string is a sequence of UTF-16 code units, modelled as
    [list Z].  [trim], [length], [includes] and [\w] are exact on code
    units.  [toLowerCase] is modelled exactly on U+0000..U+00FF and as the
    identity above (JS also lowers e.g. Greek and Cyrillic); the search
    theorems are stated for this case mapping.

    Not modelled: the CSS text and the injected style sheet, the pixel
    rendering, [setup3DEnvironment] (style property writes only), the
    smooth scroll of [setActiveNav], the transform string of [animate]
    (its two numbers are modelled), the file picker dialog and the file
    contents, the position obtained (only the notification it causes
    is), the HTML decoding of the image URL inside a card's [onclick]
    attribute (a URL with a quote is modelled as the syntax error it
    causes), and [DOMContentLoaded] creating the global [app]. *)

From Stdlib Require Import List Bool ZArith Lia.
Import ListNotations.

Declare Scope linkup_scope.
Delimit Scope linkup_scope with lu.

Create HintDb linkup.
Create Rewrite HintDb linkup_rw.

(** Turn boolean connectives in hypotheses and goal into propositions. *)
Ltac bool_simpl :=
  repeat match goal with
  | H : (_ && _)%bool = true |- _ => apply andb_prop in H; destruct H
  | H : (_ || _)%bool = false |- _ => apply orb_false_elim in H; destruct H
  | H : (_ && _)%bool = false |- _ => apply andb_false_iff in H; destruct H
  | H : (_ || _)%bool = true |- _ => apply orb_true_iff in H; destruct H
  | H : negb _ = true |- _ => apply negb_true_iff in H
  | H : negb _ = false |- _ => apply negb_false_iff in H
  | H : Z.eqb _ _ = true |- _ => apply Z.eqb_eq in H
  | H : Z.eqb _ _ = false |- _ => apply Z.eqb_neq in H
  | H : Z.ltb _ _ = true |- _ => apply Z.ltb_lt in H
  | H : Z.ltb _ _ = false |- _ => apply Z.ltb_ge in H
  | H : Z.leb _ _ = true |- _ => apply Z.leb_le in H
  | H : Z.leb _ _ = false |- _ => apply Z.leb_gt in H
  end.

(** Case on the first [if] of the goal, keeping the test as a hypothesis. *)
Ltac case_if :=
  match goal with
  | |- context [if ?b then _ else _] =>
      let E := fresh "E" in destruct b eqn:E; bool_simpl
  end.

(** ** [Array.prototype.find] and mutation of the object it returns *)

Section FindUpdate.
Context {A : Type} (p : A -> bool).

(** [arr.find(p)]: the first element satisfying [p]. *)
Fixpoint find_first (l : list A) : option A :=
  match l with
  | [] => None
  | x :: t => if p x then Some x else find_first t
  end.

(** Mutating the object [arr.find(p)] returned: only the first match
    changes, in place. *)
Fixpoint update_first (f : A -> A) (l : list A) : list A :=
  match l with
  | [] => []
  | x :: t => if p x then f x :: t else x :: update_first f t
  end.

Lemma find_first_Some l x :
  find_first l = Some x -> In x l /\ p x = true.
Proof.
  induction l as [|y t IH]; simpl; [discriminate|].
  destruct (p y) eqn:E; [intros [= <-]; auto|].
  intros H; destruct (IH H); auto.
Qed.

Lemma find_first_None l :
  find_first l = None <-> forall x, In x l -> p x = false.
Proof.
  induction l as [|y t IH]; simpl; [split; tauto|].
  destruct (p y) eqn:E; split.
  - discriminate.
  - intros H; rewrite (H y (or_introl eq_refl)) in E; discriminate.
  - intros H x [<-|Hx]; [exact E|]. apply IH; auto.
  - intros H; apply IH; auto.
Qed.

Lemma update_first_None f l :
  find_first l = None -> update_first f l = l.
Proof.
  induction l as [|y t IH]; simpl; auto.
  destruct (p y); [discriminate|]. intros H; rewrite IH; auto.
Qed.

Lemma length_update_first f l : length (update_first f l) = length l.
Proof. induction l as [|y t IH]; simpl; auto. destruct (p y); simpl; auto. Qed.

(** Whatever holds of every element and is kept by [f] holds after. *)
Lemma Forall_update_first (P : A -> Prop) f l :
  (forall x, P x -> p x = true -> P (f x)) ->
  Forall P l -> Forall P (update_first f l).
Proof.
  intros Hf H; induction H as [|y t Hy Ht IH]; simpl; [constructor|].
  destruct (p y) eqn:E; constructor; auto.
Qed.

(** The update touches exactly the element [find_first] returns. *)
Lemma update_first_split f l x :
  find_first l = Some x ->
  exists l1 l2, l = l1 ++ x :: l2 /\ update_first f l = l1 ++ f x :: l2
                /\ forall y, In y l1 -> p y = false.
Proof.
  induction l as [|y t IH]; simpl; [discriminate|].
  destruct (p y) eqn:E.
  - intros [= <-]. exists [], t. simpl; repeat split; intros ? [].
  - intros H; destruct (IH H) as (l1 & l2 & -> & -> & Hl1).
    exists (y :: l1), l2. simpl; repeat split; auto.
    intros z [<-|Hz]; auto.
Qed.

(** Updating twice the element found by a predicate that [f] keeps
    true composes the two updates. *)
Lemma update_first_twice f g l :
  (forall x, p x = true -> p (f x) = true) ->
  update_first g (update_first f l) = update_first (fun x => g (f x)) l.
Proof.
  intros Hf; induction l as [|y t IH]; simpl; auto.
  destruct (p y) eqn:E; simpl.
  - rewrite (Hf y E). reflexivity.
  - rewrite E, IH. reflexivity.
Qed.

Lemma update_first_id_in f l :
  (forall x, In x l -> p x = true -> f x = x) -> update_first f l = l.
Proof.
  induction l as [|y t IH]; intros Hf; simpl; auto.
  destruct (p y) eqn:E; [rewrite (Hf y (or_introl eq_refl) E); reflexivity|].
  rewrite IH; auto. intros x Hx; apply Hf; right; exact Hx.
Qed.

Lemma update_first_id f l :
  (forall x, p x = true -> f x = x) -> update_first f l = l.
Proof. intros Hf. apply update_first_id_in. auto. Qed.

Lemma find_first_update_first f l x :
  (forall y, p y = true -> p (f y) = true) ->
  find_first l = Some x -> find_first (update_first f l) = Some (f x).
Proof.
  intros Hf. induction l as [|y t IH]; simpl; [discriminate|].
  destruct (p y) eqn:E; simpl.
  - intros [= <-]. rewrite (Hf y E). reflexivity.
  - rewrite E. exact IH.
Qed.
End FindUpdate.

#[export] Hint Rewrite @length_update_first : linkup_rw.

(** [find] and in-place update commute with a projection that keeps the
    predicate and the update. *)
Lemma find_first_map {A B} (p : A -> bool) (q : B -> bool) (g : A -> B) l :
  (forall x, q (g x) = p x) -> find_first q (map g l) = option_map g (find_first p l).
Proof.
  intros Hq. induction l as [|x t IH]; simpl; auto.
  rewrite Hq. destruct (p x); auto.
Qed.

Lemma update_first_map {A B} (p : A -> bool) (q : B -> bool) (g : A -> B) f f' l :
  (forall x, q (g x) = p x) -> (forall x, In x l -> p x = true -> g (f x) = f' (g x)) ->
  map g (update_first p f l) = update_first q f' (map g l).
Proof.
  intros Hq. induction l as [|x t IH]; intros Hf; simpl; auto.
  rewrite Hq. destruct (p x) eqn:E; simpl.
  - rewrite (Hf x (or_introl eq_refl) E). reflexivity.
  - rewrite IH; auto. intros y Hy. apply Hf. right; exact Hy.
Qed.

(** ** Writing an array element by index: [arr[i] = x] for [i] in range *)

Fixpoint set_nth {A} (i : nat) (x : A) (l : list A) : list A :=
  match l, i with
  | [], _ => []
  | _ :: t, O => x :: t
  | y :: t, S i' => y :: set_nth i' x t
  end.

Lemma length_set_nth {A} i (x : A) l : length (set_nth i x l) = length l.
Proof. revert i; induction l as [|y t IH]; intros [|i]; simpl; auto. Qed.

Lemma nth_set_nth {A} i j (x d : A) l :
  (i < length l)%nat -> nth j (set_nth i x l) d = if Nat.eqb j i then x else nth j l d.
Proof.
  revert i j; induction l as [|y t IH]; intros [|i] [|j] H; simpl in *; try lia; auto.
  apply IH. lia.
Qed.

#[export] Hint Rewrite @length_set_nth : linkup_rw.

(** ** Generic facts on [filter] used by the search component *)

Lemma filter_In_iff {A} (f : A -> bool) (l : list A) x :
  In x (filter f l) <-> In x l /\ f x = true.
Proof. apply filter_In. Qed.

Lemma filter_ext_in {A} (f g : A -> bool) (l : list A) :
  (forall x, In x l -> f x = g x) -> filter f l = filter g l.
Proof.
  induction l as [|y t IH]; simpl; intros H; auto.
  rewrite (H y (or_introl eq_refl)), IH; auto.
Qed.

(** ** Order-preserving sublists *)

Inductive subseq {A} : list A -> list A -> Prop :=
| subseq_nil : subseq [] []
| subseq_keep x l1 l2 : subseq l1 l2 -> subseq (x :: l1) (x :: l2)
| subseq_skip x l1 l2 : subseq l1 l2 -> subseq l1 (x :: l2).

#[export] Hint Constructors subseq : linkup.

(** [filter] keeps the survivors in their original order. *)
Lemma filter_subseq {A} (f : A -> bool) l : subseq (filter f l) l.
Proof. induction l as [|x t IH]; simpl; [constructor|]. destruct (f x); auto with linkup. Qed.

(** A filter that drops something is shorter. *)
Lemma filter_length_lt {A} (f : A -> bool) l : filter f l <> l -> length (filter f l) < length l.
Proof.
  induction l as [|x t IH]; simpl; [congruence|]. intros H.
  pose proof (filter_length_le f t) as Hle.
  destruct (f x); simpl; [|lia]. apply -> Nat.succ_lt_mono. apply IH. congruence.
Qed.

Lemma subseq_In {A} (l1 l2 : list A) x : subseq l1 l2 -> In x l1 -> In x l2.
Proof. induction 1; simpl; intuition. Qed.

(** ** Integers *)

Lemma Z_div_floor_bounds (a b : Z) :
  (0 < b -> b * (a / b) <= a < b * (a / b) + b)%Z.
Proof.
  intros Hb. pose proof (Z.div_mod a b ltac:(lia)) as Hd.
  pose proof (Z.mod_pos_bound a b Hb). lia.
Qed.
