(* ===== verification/JsString.v ===== *)
(** JS strings as UTF-16 code-unit sequences, and the string operations
    [src/script.js] calls: [String.prototype.trim] (line 130),
    [toLowerCase] and [includes] (lines 246-247), [length] (line 243),
    integer-to-decimal conversion in template literals (lines 429,
    558-560) and the regex class [\w] (lines 546-547).  Lemmas: trim
    removes exactly the edge whitespace, case folding is idempotent,
    [includes] is substring containment, decimal printing round-trips. *)

From Stdlib Require Import String Ascii.
From Stdlib Require Import List Bool ZArith Lia.
From S2P Require Import Prelude.
Import ListNotations.
Local Open Scope Z_scope.

(** A JS string: its UTF-16 code units. *)
Definition jstr := list Z.

(** ASCII literals written as Rocq strings. *)
Definition js (s : String.string) : jstr :=
  map (fun c => Z.of_N (Ascii.N_of_ascii c)) (String.list_ascii_of_string s).
Arguments js s%_string.

(** ECMAScript WhiteSpace and LineTerminator code units: what [trim]
    strips. *)
Definition is_js_ws (c : Z) : bool :=
  (c =? 9) || (c =? 10) || (c =? 11) || (c =? 12) || (c =? 13)
  || (c =? 32) || (c =? 160) || (c =? 5760)
  || ((8192 <=? c) && (c <=? 8202))
  || (c =? 8232) || (c =? 8233) || (c =? 8239) || (c =? 8287)
  || (c =? 12288) || (c =? 65279).

Fixpoint trim_start (s : jstr) : jstr :=
  match s with
  | [] => []
  | c :: t => if is_js_ws c then trim_start t else s
  end.

Definition trim_end (s : jstr) : jstr := rev (trim_start (rev s)).

(** [s.trim()] *)
Definition trim (s : jstr) : jstr := trim_end (trim_start s).

(** [toLowerCase] on one code unit: exact on U+0000..U+00FF. *)
Definition lower_unit (c : Z) : Z :=
  if ((65 <=? c) && (c <=? 90)) || ((192 <=? c) && (c <=? 222) && negb (c =? 215))
  then c + 32 else c.

(** [s.toLowerCase()] *)
Definition toLowerCase (s : jstr) : jstr := map lower_unit s.

Fixpoint starts_with (s q : jstr) : bool :=
  match q, s with
  | [], _ => true
  | c :: q', d :: s' => (c =? d) && starts_with s' q'
  | _ :: _, [] => false
  end.

(** [s.includes(q)]: some position of [s] starts with [q]. *)
Fixpoint includes (s q : jstr) : bool :=
  starts_with s q || match s with [] => false | _ :: s' => includes s' q end.

(** [s.length] *)
Definition js_length (s : jstr) : Z := Z.of_nat (length s).

(** The regex class [\w] (no [u] flag): [A-Za-z0-9_]. *)
Definition is_word_char (c : Z) : bool :=
  ((48 <=? c) && (c <=? 57)) || ((65 <=? c) && (c <=? 90))
  || ((97 <=? c) && (c <=? 122)) || (c =? 95).

(** Decimal digits of a non-negative integer, most significant first:
    [Number.prototype.toString()] on the integers the code prints.  The
    fuel counts digits; [Z.log2 n + 1] is enough since [10^k >= 2^k]. *)
Fixpoint digits_aux (fuel : nat) (n : Z) (acc : jstr) : jstr :=
  match fuel with
  | O => acc
  | S f => if n <? 10 then (48 + n) :: acc
           else digits_aux f (n / 10) ((48 + n mod 10) :: acc)
  end.

Definition nat_to_dec (n : Z) : jstr := digits_aux (S (Z.to_nat (Z.log2 n))) n [].

(** [`${n}`] for an integer [n]. *)
Definition int_to_dec (n : Z) : jstr :=
  if n <? 0 then 45 :: nat_to_dec (- n) else nat_to_dec n.

(** Reading a decimal numeral back (the inverse used in round trips). *)
Definition parse_dec (s : jstr) : option Z :=
  fold_left (fun acc c => match acc with
                          | Some v => if (48 <=? c) && (c <=? 57)
                                      then Some (10 * v + (c - 48)) else None
                          | None => None end) s (match s with [] => None | _ => Some 0 end).

(** The value of an integer literal in JS source, [123] or [-123] (a
    unary minus applied to the numeral). *)
Definition parse_int_literal (s : jstr) : option Z :=
  match s with
  | c :: ds => if c =? 45 then option_map Z.opp (parse_dec ds) else parse_dec s
  | [] => parse_dec s
  end.

(** Equality of JS strings ([===]). *)
Definition jstr_eqb (a b : jstr) : bool := if list_eq_dec Z.eq_dec a b then true else false.

Lemma jstr_eqb_spec a b : jstr_eqb a b = true <-> a = b.
Proof. unfold jstr_eqb. destruct (list_eq_dec Z.eq_dec a b); split; congruence. Qed.

Lemma jstr_eqb_refl a : jstr_eqb a a = true.
Proof. apply jstr_eqb_spec. reflexivity. Qed.

#[export] Hint Rewrite jstr_eqb_refl : linkup_rw.

(** ** Trim *)

Lemma trim_start_app_ws s t :
  Forall (fun c => is_js_ws c = true) s -> trim_start (s ++ t) = trim_start t.
Proof. induction 1 as [|c s Hc _ IH]; simpl; auto. rewrite Hc; auto. Qed.

Lemma trim_start_spec s :
  exists w, s = w ++ trim_start s /\ Forall (fun c => is_js_ws c = true) w
            /\ match trim_start s with [] => True | c :: _ => is_js_ws c = false end.
Proof.
  induction s as [|c t (w & Hw & Hws & Hh)]; simpl.
  - exists []; auto.
  - destruct (is_js_ws c) eqn:E.
    + exists (c :: w). simpl; rewrite <- Hw; auto.
    + exists []; simpl; auto.
Qed.

Lemma trim_start_idem s : trim_start (trim_start s) = trim_start s.
Proof.
  induction s as [|c t IH]; simpl; auto.
  destruct (is_js_ws c) eqn:E; simpl; [exact IH|rewrite E; reflexivity].
Qed.

Lemma trim_start_nil_iff s :
  trim_start s = [] <-> Forall (fun c => is_js_ws c = true) s.
Proof.
  induction s as [|c t IH]; simpl; [split; auto|].
  destruct (is_js_ws c) eqn:E; split; intros H.
  - constructor; auto. apply IH; auto.
  - inversion H; subst; apply IH; auto.
  - discriminate.
  - inversion H; congruence.
Qed.

Lemma Forall_rev_iff {A} (P : A -> Prop) l : Forall P (rev l) <-> Forall P l.
Proof. rewrite !Forall_forall. setoid_rewrite <- in_rev. tauto. Qed.

(** The trimmed text is empty exactly when the input is all whitespace. *)
Lemma trim_nil_iff s :
  trim s = [] <-> Forall (fun c => is_js_ws c = true) s.
Proof.
  unfold trim, trim_end. split.
  - intros H. destruct (trim_start_spec s) as (w & Hs & Hw & _).
    assert (Hn : trim_start (rev (trim_start s)) = [])
      by (apply (f_equal (@rev Z)) in H; rewrite rev_involutive in H; exact H).
    apply trim_start_nil_iff, Forall_rev_iff in Hn.
    rewrite rev_involutive in Hn. rewrite Hs; apply Forall_app; split; auto.
  - intros H. apply trim_start_nil_iff in H. rewrite H. reflexivity.
Qed.

Lemma trim_start_rev_trim_end s : trim_start (rev (trim_end s)) = rev (trim_end s).
Proof. unfold trim_end. rewrite rev_involutive, trim_start_idem. reflexivity. Qed.

Lemma length_trim_start s : (length (trim_start s) <= length s)%nat.
Proof. induction s as [|c t IH]; simpl; [lia|]. destruct (is_js_ws c); simpl; lia. Qed.

Lemma trim_start_trim_end s :
  trim_start s = s -> trim_start (trim_end s) = trim_end s.
Proof.
  intros Hs. unfold trim_end.
  destruct (trim_start_spec (rev s)) as (w & Hw & Hws & _).
  assert (Hrev : s = rev (trim_start (rev s)) ++ rev w).
  { rewrite <- rev_app_distr, <- Hw, rev_involutive. reflexivity. }
  destruct (rev (trim_start (rev s))) as [|c t] eqn:E; [reflexivity|].
  rewrite Hrev in Hs. simpl in Hs |- *.
  destruct (is_js_ws c) eqn:Ec; [|reflexivity].
  exfalso. apply (f_equal (@length Z)) in Hs.
  pose proof (length_trim_start (t ++ rev w)). simpl in Hs. lia.
Qed.

(** [trim] is idempotent: re-trimming the composer text changes nothing. *)
Lemma trim_idem s : trim (trim s) = trim s.
Proof.
  unfold trim. rewrite (trim_start_trim_end (trim_start s)) by apply trim_start_idem.
  unfold trim_end. rewrite rev_involutive, trim_start_idem. reflexivity.
Qed.

(** ** Case folding *)

Lemma lower_unit_idem c : lower_unit (lower_unit c) = lower_unit c.
Proof. unfold lower_unit. repeat case_if; lia. Qed.

Lemma toLowerCase_idem s : toLowerCase (toLowerCase s) = toLowerCase s.
Proof. unfold toLowerCase. rewrite map_map. apply map_ext, lower_unit_idem. Qed.

Lemma length_toLowerCase s : length (toLowerCase s) = length s.
Proof. apply length_map. Qed.

Lemma toLowerCase_app s t : toLowerCase (s ++ t) = toLowerCase s ++ toLowerCase t.
Proof. apply map_app. Qed.

#[export] Hint Rewrite toLowerCase_idem length_toLowerCase toLowerCase_app : linkup_rw.

(** ** Substring search *)

Lemma starts_with_spec s q : starts_with s q = true <-> exists b, s = q ++ b.
Proof.
  revert s; induction q as [|c q IH]; intros [|d s]; simpl.
  - split; eauto.
  - split; eauto.
  - split; [discriminate|intros [b Hb]; discriminate].
  - rewrite andb_true_iff, Z.eqb_eq, IH. split.
    + intros [-> [b ->]]. eauto.
    + intros [b [= -> ->]]. eauto.
Qed.

(** [s.includes(q)] holds exactly when [q] is a contiguous part of [s]. *)
Lemma includes_unfold s q :
  includes s q = starts_with s q || match s with [] => false | _ :: s' => includes s' q end.
Proof. destruct s; reflexivity. Qed.

Lemma includes_spec s q : includes s q = true <-> exists a b, s = a ++ q ++ b.
Proof.
  induction s as [|d s IH]; rewrite includes_unfold, orb_true_iff, starts_with_spec.
  - split.
    + intros [[b Hb]|H]; [exists [], b; auto|discriminate].
    + intros ([|x a] & b & H); [left; eauto|discriminate].
  - rewrite IH. split.
    + intros [[b Hb]|(a & b & Hab)]; [exists [], b; auto|exists (d :: a), b; rewrite Hab; auto].
    + intros ([|x a] & b & H); [left; eauto|]. injection H as -> ->. right; eauto.
Qed.

Lemma includes_nil s : includes s [] = true.
Proof. destruct s; reflexivity. Qed.

#[export] Hint Resolve includes_nil : linkup.

(** ** Decimal numerals *)

Lemma div10_bound n f : 10 <= n -> n < 10 ^ Z.of_nat (S f) ->
  0 <= n / 10 /\ n / 10 < 10 ^ Z.of_nat f /\ (0 < f)%nat.
Proof.
  intros H1 H2. rewrite Nat2Z.inj_succ, Z.pow_succ_r in H2 by lia.
  assert (n / 10 < 10 ^ Z.of_nat f) by (apply Z.div_lt_upper_bound; lia).
  assert (1 <= n / 10) by (apply Z.div_le_lower_bound; lia).
  repeat split; try lia. destruct f; simpl in *; lia.
Qed.

Lemma digits_aux_spec fuel n acc :
  0 <= n -> n < 10 ^ Z.of_nat fuel ->
  digits_aux fuel n acc = digits_aux fuel n [] ++ acc.
Proof.
  revert n acc; induction fuel as [|f IH]; intros n acc Hn Hlt; [reflexivity|]. cbn [digits_aux].
  case_if; [reflexivity|].
  destruct (div10_bound n f) as (H1 & H2 & _); auto; try lia.
  rewrite (IH _ ((48 + n mod 10) :: acc)), (IH _ [48 + n mod 10]) by auto.
  rewrite <- app_assoc. reflexivity.
Qed.

Lemma parse_dec_snoc s c v :
  parse_dec s = Some v -> 48 <= c <= 57 -> parse_dec (s ++ [c]) = Some (10 * v + (c - 48)).
Proof.
  unfold parse_dec. intros Hs Hc. destruct s as [|x s]; [discriminate|].
  change (match (x :: s) ++ [c] with [] => None | _ => Some 0 end) with (Some 0).
  change (match x :: s with [] => None | _ => Some 0 end) with (Some 0) in Hs.
  rewrite fold_left_app, Hs. simpl. repeat case_if; try lia; reflexivity.
Qed.

Lemma log2_pow_bound n : 0 <= n -> n < 10 ^ Z.of_nat (S (Z.to_nat (Z.log2 n))).
Proof.
  intros Hn. destruct (Z.eq_dec n 0) as [->|Hne]; [simpl; lia|].
  pose proof (Z.log2_spec n ltac:(lia)) as [_ Hs].
  rewrite Nat2Z.inj_succ, Z2Nat.id by apply Z.log2_nonneg.
  apply Z.lt_le_trans with (2 ^ Z.succ (Z.log2 n)); auto.
  apply Z.pow_le_mono_l; lia.
Qed.

Lemma digits_aux_roundtrip fuel n :
  (0 < fuel)%nat -> 0 <= n -> n < 10 ^ Z.of_nat fuel -> parse_dec (digits_aux fuel n []) = Some n.
Proof.
  revert n; induction fuel as [|f IH]; intros n Hf Hn Hlt; [lia|]. cbn [digits_aux].
  case_if.
  { unfold parse_dec; cbn [fold_left].
    destruct (48 <=? 48 + n) eqn:E1, (48 + n <=? 57) eqn:E2; cbn [andb]; bool_simpl;
      try lia. f_equal; lia. }
  destruct (div10_bound n f) as (H1 & H2 & H3); auto.
  rewrite digits_aux_spec by auto.
  pose proof (Z.mod_pos_bound n 10 ltac:(lia)).
  rewrite (parse_dec_snoc _ _ (n / 10)) by (auto; lia).
  f_equal. pose proof (Z.div_mod n 10 ltac:(lia)). lia.
Qed.

(** Printing a count and reading it back gives the count. *)
Lemma nat_to_dec_roundtrip n : 0 <= n -> parse_dec (nat_to_dec n) = Some n.
Proof. intros Hn. apply digits_aux_roundtrip; auto using log2_pow_bound. lia. Qed.

Lemma parse_dec_fold_None l :
  fold_left (fun acc c => match acc with
                          | Some v => if (48 <=? c) && (c <=? 57)
                                      then Some (10 * v + (c - 48)) else None
                          | None => None end) l None = None.
Proof. induction l; simpl; auto. Qed.

(** A numeral that reads back starts with a digit. *)
Lemma parse_dec_head c ds v : parse_dec (c :: ds) = Some v -> 48 <= c <= 57.
Proof.
  unfold parse_dec. cbn [fold_left]. destruct ((48 <=? c) && (c <=? 57)) eqn:E.
  - bool_simpl. lia.
  - rewrite parse_dec_fold_None. discriminate.
Qed.

(** [${n}] written into JS source reads back as [n]. *)
Lemma int_to_dec_literal n : parse_int_literal (int_to_dec n) = Some n.
Proof.
  unfold int_to_dec. destruct (Z.ltb_spec n 0).
  - cbn [parse_int_literal Z.eqb]. rewrite nat_to_dec_roundtrip by lia. simpl. f_equal. lia.
  - pose proof (nat_to_dec_roundtrip n ltac:(lia)) as R.
    destruct (nat_to_dec n) as [|c ds] eqn:E; [exact R|].
    cbn [parse_int_literal]. destruct (Z.eqb_spec c 45) as [->|]; [|exact R].
    apply parse_dec_head in R. lia.
Qed.

Lemma nat_to_dec_inj m n : 0 <= m -> 0 <= n -> nat_to_dec m = nat_to_dec n -> m = n.
Proof.
  intros Hm Hn H. apply (f_equal parse_dec) in H.
  rewrite !nat_to_dec_roundtrip in H; congruence.
Qed.
