(* ===== verification/Posts.v ===== *)
(** The post store of [LinkUpApp]: the [posts] array and the
    [currentUser] object (src/script.js lines 6-15), the sample data of
    [loadSampleData] (lines 307-390), the store part of [createPost]
    (lines 129-146) and of [handlePostAction] (lines 191-211).
    Properties: the engagement invariant and its preservation on every
    reachable store, the functional behaviour of publishing and of each
    action (found and not found), double toggling, id freshness under a
    monotone clock and what duplicate ids do. *)

From Stdlib Require Import String.
From Stdlib Require Import List Bool ZArith Lia.
From S2P Require Import Prelude JsString.
Import ListNotations.
Local Open Scope Z_scope.

Module PostStore.

(** A user object.  Sample authors carry only [name], [username] and
    [avatar]; [currentUser] also has [id] and the three counters, hence
    the options. *)
Record User := mkUser {
  uid : option Z; name : jstr; username : jstr; avatar : jstr;
  following : option Z; followers : option Z; posts_count : option Z }.

(** A post object (lines 133-144 and 309-388). *)
Record Post := mkPost {
  id : Z; user : User; content : jstr; image : option jstr; timestamp : Z;
  likes : Z; retweets : Z; comments : Z; liked : bool; retweeted : bool }.

(** [this.currentUser] (lines 7-15). *)
Definition currentUser : User :=
  mkUser (Some 1) (js "Arjun Sharma") (js "@arjunsharma")
    (js "https://source.unsplash.com/300x300/?india,cricketer,portrait&sig=241")
    (Some 1200) (Some 5800) (Some 234).

(** The actions the post buttons send (lines 436-448); any other string
    reaches no [case] of the [switch]. *)
Inductive Action := Like | Retweet | Comment | Share | OtherAction (a : jstr).

(** The field writes of one [case] of the [switch] (lines 196-210).
    [Share] only calls [sharePost], which reads the post. *)
Definition apply_action (a : Action) (p : Post) : Post :=
  match a with
  | Like =>
      let l := negb (liked p) in
      mkPost (id p) (user p) (content p) (image p) (timestamp p)
        (likes p + (if l then 1 else -1)) (retweets p) (comments p) l (retweeted p)
  | Retweet =>
      let r := negb (retweeted p) in
      mkPost (id p) (user p) (content p) (image p) (timestamp p)
        (likes p) (retweets p + (if r then 1 else -1)) (comments p) (liked p) r
  | Comment =>
      mkPost (id p) (user p) (content p) (image p) (timestamp p)
        (likes p) (retweets p) (comments p + 1) (liked p) (retweeted p)
  | Share | OtherAction _ => p
  end.

(** [p => p.id === postId] *)
Definition has_id (pid : Z) (p : Post) : bool := id p =? pid.

(** Lines 192-211 on the store: [None] is the early [return] when no
    post has the id; otherwise the object [find] returned is mutated in
    place. *)
Definition post_action (a : Action) (pid : Z) (posts : list Post) : option (list Post) :=
  match find_first (has_id pid) posts with
  | None => None
  | Some _ => Some (update_first (has_id pid) (apply_action a) posts)
  end.

(** The object literal of lines 133-144: [id: Date.now()],
    [timestamp: new Date()], read at the same instant [now]. *)
Definition new_post (cu : User) (now : Z) (text : jstr) : Post :=
  mkPost now cu text None now 0 0 0 false false.

(** Lines 130-146 on the store: trim the composer text, return early if
    it is empty, otherwise [unshift] the new post. *)
Definition publish (cu : User) (now : Z) (raw : jstr) (posts : list Post)
  : option (list Post) :=
  match trim raw with
  | [] => None
  | t => Some (new_post cu now t :: posts)
  end.

(** ** Sample data (lines 307-390), loaded at time [now]. *)

Definition sample_user (n u a : String.string) : User :=
  mkUser None (js n) (js u) (js a) None None None.
Arguments sample_user (n u a)%_string.

Definition hours_ago (now h : Z) : Z := now - h * 60 * 60 * 1000.

Definition loadSampleData (now : Z) : list Post := [
  mkPost 1 (sample_user "Priya Patel" "@priyapatel"
      "https://source.unsplash.com/300x300/?indian,cricketer,portrait&sig=242")
    (js "Just finished building an amazing React component! The new hooks API is incredible. "
       ++ [55357; 56960] ++ js " #ReactJS #WebDev #TechIndia")
    (Some (js "https://images.unsplash.com/photo-1633356122544-f134324a6cee?w=600&h=300&fit=crop"))
    (hours_ago now 2) 42 8 12 false false;
  mkPost 2 (sample_user "Rajesh Kumar" "@rajeshkumar"
      "https://source.unsplash.com/300x300/?india,cricket,player&sig=243")
    (js "Beautiful sunset from my office window in Bangalore today. Sometimes you need to step back and appreciate the simple things. "
       ++ [55356; 57093] ++ js " #Bangalore #Sunset")
    (Some (js "https://images.unsplash.com/photo-1506905925346-21bda4d32df4?w=600&h=400&fit=crop"))
    (hours_ago now 4) 28 5 7 true false;
  mkPost 3 (sample_user "Kavya Singh" "@kavyasingh"
      "https://source.unsplash.com/300x300/?india,cricket,portrait&sig=244")
    (js "Chai and code - the perfect combination for a productive morning! "
       ++ [9749; 65039] ++ js " What's your favorite coding beverage? #Chai #Coding #India")
    None (hours_ago now 6) 35 12 18 false true;
  mkPost 4 (sample_user "Vikram Singh" "@vikramsingh"
      "https://source.unsplash.com/300x300/?cricket,india,batsman&sig=245")
    (js "Just launched my fintech startup! " ++ [55356; 57225]
       ++ js " After months of hard work, we're finally live. Thank you to everyone who supported us along the way! #StartupIndia #Fintech")
    (Some (js "https://images.unsplash.com/photo-1551434678-e076c223a692?w=600&h=300&fit=crop"))
    (hours_ago now 8) 89 23 31 false false;
  mkPost 5 (sample_user "Deepika Sharma" "@deepikasharma"
      "https://source.unsplash.com/300x300/?indian,cricket,team&sig=246")
    (js "Weekend vibes in Goa! " ++ [55356; 57302; 65039]
       ++ js " Sometimes you need to disconnect to reconnect. How do you like to spend your weekends? #Goa #Weekend #Relax")
    (Some (js "https://images.unsplash.com/photo-1507525428034-b723cf961d3e?w=600&h=400&fit=crop"))
    (hours_ago now 12) 67 15 24 true false ].

(** ** Well-formedness: counters are non-negative and a set flag is
    backed by at least one count. *)

Definition post_wfb (p : Post) : bool :=
  (0 <=? likes p) && (0 <=? retweets p) && (0 <=? comments p)
  && (if liked p then 1 <=? likes p else true)
  && (if retweeted p then 1 <=? retweets p else true).

Definition post_wf (p : Post) : Prop := post_wfb p = true.

Definition store_wf (posts : list Post) : Prop := Forall post_wf posts.

(** Stores the program can reach: the sample data, then publishes and
    post actions in any order. *)
Inductive reachable : list Post -> Prop :=
| reach_load now : reachable (loadSampleData now)
| reach_publish posts now raw posts' :
    reachable posts -> publish currentUser now raw posts = Some posts' -> reachable posts'
| reach_action posts a pid posts' :
    reachable posts -> post_action a pid posts = Some posts' -> reachable posts'.

(** ** Lemmas on one post *)

Lemma id_apply_action a p : id (apply_action a p) = id p.
Proof. destruct a; reflexivity. Qed.

Lemma has_id_apply_action pid a p : has_id pid (apply_action a p) = has_id pid p.
Proof. unfold has_id. rewrite id_apply_action. reflexivity. Qed.

#[export] Hint Rewrite id_apply_action has_id_apply_action : linkup_rw.

Lemma apply_action_wf a p : post_wf p -> post_wf (apply_action a p).
Proof.
  unfold post_wf, post_wfb. destruct p as [i u c im t l r cm lk rt]; simpl.
  destruct a, lk, rt; simpl; intros H; bool_simpl;
    rewrite ?andb_true_iff, ?Z.leb_le; repeat split; lia.
Qed.

#[export] Hint Resolve apply_action_wf : linkup.

(** Toggling twice restores the post, whatever its counters. *)
Lemma apply_action_toggle_twice a p :
  a = Like \/ a = Retweet -> apply_action a (apply_action a p) = p.
Proof.
  destruct p as [i u c im t l r cm lk rt]; intros [-> | ->]; simpl;
    [destruct lk|destruct rt]; simpl; f_equal; lia.
Qed.

Lemma post_action_found a pid posts :
  (exists p, In p posts /\ id p = pid) ->
  post_action a pid posts = Some (update_first (has_id pid) (apply_action a) posts).
Proof.
  intros (p & Hin & Hid). unfold post_action.
  destruct (find_first (has_id pid) posts) eqn:E; [reflexivity|].
  apply find_first_None with (x := p) in E; auto.
  unfold has_id in E. rewrite Hid, Z.eqb_refl in E. discriminate.
Qed.

Lemma post_action_Some a pid posts posts' :
  post_action a pid posts = Some posts' ->
  posts' = update_first (has_id pid) (apply_action a) posts
  /\ exists p, find_first (has_id pid) posts = Some p.
Proof.
  unfold post_action. destruct (find_first _ _) eqn:E; intros H; inversion H; eauto.
Qed.

(** ** Well-formedness is an invariant of the store *)

Lemma sample_wf now : store_wf (loadSampleData now).
Proof. repeat constructor. Qed.

Lemma publish_Some cu now raw posts posts' :
  publish cu now raw posts = Some posts' -> exists t, posts' = new_post cu now t :: posts.
Proof.
  unfold publish. intros H.
  repeat match type of H with context [match ?x with _ => _ end] => destruct x end;
    inversion H; eauto.
Qed.

Lemma store_wf_post_action a pid posts posts' :
  store_wf posts -> post_action a pid posts = Some posts' -> store_wf posts'.
Proof.
  intros Hwf H. apply post_action_Some in H as [-> _].
  apply Forall_update_first; auto with linkup.
Qed.

(** C5: a post action keeps every post of the store well formed:
    counters stay non-negative and a set [liked] / [retweeted] flag is
    backed by a count of at least one. *)
Theorem post_action_preserves_wf a pid posts posts' :
  store_wf posts -> post_action a pid posts = Some posts' -> store_wf posts'.
Proof. apply store_wf_post_action. Qed.

Lemma publish_preserves_wf cu now raw posts posts' :
  store_wf posts -> publish cu now raw posts = Some posts' -> store_wf posts'.
Proof.
  intros Hwf H. apply publish_Some in H as [t ->]. constructor; auto. reflexivity.
Qed.

Lemma reachable_wf posts : reachable posts -> store_wf posts.
Proof.
  induction 1.
  - apply sample_wf.
  - eapply publish_preserves_wf; eauto.
  - eapply store_wf_post_action; eauto.
Qed.

(** C2: every store reachable from the sample data by publishes and post
    actions is well formed: no engagement counter of any post is ever
    negative, and each set flag has a count of at least one. *)
Theorem reachable_store_wf posts : reachable posts -> store_wf posts.
Proof. apply reachable_wf. Qed.

(** ** Behaviour of each action *)

(** C6: an action on an id that no post has fails (the handler's early
    [return]) and leaves the store as it is. *)
Theorem post_action_not_found a pid posts :
  (forall p, In p posts -> id p <> pid) <-> post_action a pid posts = None.
Proof.
  unfold post_action. split.
  - intros H. rewrite (proj2 (find_first_None _ _)); [reflexivity|].
    intros p Hp. unfold has_id. apply Z.eqb_neq; auto.
  - destruct (find_first (has_id pid) posts) eqn:E; [discriminate|]. intros _ p Hp Hid.
    rewrite find_first_None in E. specialize (E p Hp).
    unfold has_id in E. rewrite Hid, Z.eqb_refl in E. discriminate.
Qed.

(** C3: liking flips [liked] of the first post with the id and moves its
    [likes] by exactly one, up when it becomes liked and down otherwise;
    every other post and field is untouched. *)
Theorem post_action_like_spec pid posts posts' :
  post_action Like pid posts = Some posts' ->
  exists l1 p l2,
    posts = l1 ++ p :: l2 /\ id p = pid /\ (forall q, In q l1 -> id q <> pid) /\
    posts' = l1 ++ mkPost (id p) (user p) (content p) (image p) (timestamp p)
                    (if liked p then likes p - 1 else likes p + 1)
                    (retweets p) (comments p) (negb (liked p)) (retweeted p) :: l2.
Proof.
  intros H. apply post_action_Some in H as [-> [p Hp]].
  destruct (update_first_split _ (apply_action Like) _ _ Hp) as (l1 & l2 & -> & -> & Hl1).
  apply find_first_Some in Hp as [_ Hid]. unfold has_id in Hid; bool_simpl.
  exists l1, p, l2. repeat split; auto.
  - intros q Hq. specialize (Hl1 q Hq). unfold has_id in Hl1. bool_simpl. auto.
  - unfold apply_action; destruct (liked p); simpl; repeat f_equal; lia.
Qed.

(** C4: liking (or retweeting) the same post twice returns the store to
    exactly what it was. *)
Theorem post_action_toggle_twice a pid posts posts' :
  a = Like \/ a = Retweet ->
  post_action a pid posts = Some posts' -> post_action a pid posts' = Some posts.
Proof.
  intros Ha H. apply post_action_Some in H as [-> [p Hp]].
  destruct (update_first_split _ (apply_action a) _ _ Hp) as (l1 & l2 & _ & Hu & _).
  apply find_first_Some in Hp as [_ Hid]. unfold has_id in Hid; bool_simpl.
  rewrite post_action_found.
  - rewrite update_first_twice by (intros x; rewrite has_id_apply_action; auto).
    f_equal. apply update_first_id. intros x _. apply apply_action_toggle_twice; auto.
  - exists (apply_action a p). rewrite id_apply_action, Hu. split; auto.
    apply in_or_app; right; left; reflexivity.
Qed.

(** ** Publishing *)

(** C7: composer text that is empty or only whitespace publishes
    nothing ([createPost] returns early) and the store is unchanged. *)
Theorem publish_blank_rejected cu now raw posts :
  Forall (fun c => is_js_ws c = true) raw -> publish cu now raw posts = None.
Proof. intros H. unfold publish. rewrite (proj2 (trim_nil_iff raw) H). reflexivity. Qed.

(** C1: publishing succeeds exactly when the trimmed text is non-empty,
    and then puts at the head of the store a post by the given author,
    with the trimmed text, no image, id and timestamp [now], zero
    counters and both flags off, in front of the old store. *)
Theorem publish_spec cu now raw posts posts' :
  publish cu now raw posts = Some posts' <->
  trim raw <> [] /\
  posts' = mkPost now cu (trim raw) None now 0 0 0 false false :: posts.
Proof.
  unfold publish. split.
  - destruct (trim raw); intros H; inversion H; subst; split; [discriminate|reflexivity].
  - intros [Hne ->]. destruct (trim raw); [congruence|reflexivity].
Qed.

Definition ids (posts : list Post) : list Z := map id posts.

(** C8: ids stay unique when the clock has moved past every id in the
    store: after the publish all ids are still distinct and none exceeds
    the new time, so the next publish at a later time is fresh again. *)
Theorem publish_fresh_id cu now raw posts posts' :
  NoDup (ids posts) -> Forall (fun p => id p < now) posts ->
  publish cu now raw posts = Some posts' ->
  NoDup (ids posts') /\ Forall (fun p => id p <= now) posts'.
Proof.
  intros Hnd Hlt H. apply publish_Some in H as [t ->]. unfold ids in *. simpl. split.
  - constructor; auto. rewrite in_map_iff. intros (q & Hq & Hin).
    rewrite Forall_forall in Hlt. specialize (Hlt q Hin). lia.
  - constructor; [simpl; lia|]. eapply Forall_impl; [|exact Hlt]. intros q; simpl; lia.
Qed.

(** C9: two publishes within the same millisecond give two posts the same
    id ([id: Date.now()]), and from then on a like sent with that id only
    ever reaches the newer post: the older one is unreachable by its
    buttons. *)
Theorem publish_same_ms_duplicate_id now :
  exists posts',
    publish currentUser now (js "a") (loadSampleData 0) = Some posts' /\
    exists posts'',
      publish currentUser now (js "b") posts' = Some posts'' /\
      ~ NoDup (ids posts'') /\
      forall l, post_action Like now posts'' = Some l -> nth 1 l (new_post currentUser 0 []) = nth 1 posts'' (new_post currentUser 0 []).
Proof.
  eexists; split; [reflexivity|]. eexists; split; [reflexivity|]. split.
  - unfold ids. simpl. intros Hnd. inversion Hnd as [|x l Hx _]. apply Hx. left; reflexivity.
  - intros l H. apply post_action_Some in H as [-> _]. simpl.
    unfold has_id; simpl. rewrite Z.eqb_refl. reflexivity.
Qed.

(** ** Witnesses *)

Lemma post_action_preserves_wf_witness :
  exists posts', post_action Comment 3 (loadSampleData 0) = Some posts' /\ store_wf posts'.
Proof.
  eexists; split; [reflexivity|].
  apply (post_action_preserves_wf Comment 3 (loadSampleData 0)); [apply sample_wf|reflexivity].
Defined.

Lemma reachable_store_wf_witness : store_wf (loadSampleData 7).
Proof. apply reachable_store_wf. apply reach_load. Defined.

Lemma post_action_like_spec_witness :
  exists posts', post_action Like 2 (loadSampleData 0) = Some posts' /\
  exists l1 p l2,
    loadSampleData 0 = l1 ++ p :: l2 /\ id p = 2 /\ (forall q, In q l1 -> id q <> 2) /\
    posts' = l1 ++ mkPost (id p) (user p) (content p) (image p) (timestamp p)
                    (if liked p then likes p - 1 else likes p + 1)
                    (retweets p) (comments p) (negb (liked p)) (retweeted p) :: l2.
Proof.
  eexists; split; [reflexivity|]. apply post_action_like_spec. reflexivity.
Defined.

Lemma post_action_toggle_twice_witness :
  exists posts', post_action Like 1 (loadSampleData 0) = Some posts' /\
                 post_action Like 1 posts' = Some (loadSampleData 0).
Proof.
  eexists; split; [reflexivity|].
  apply (post_action_toggle_twice Like 1 (loadSampleData 0)); [left; reflexivity|reflexivity].
Defined.

Lemma post_action_not_found_witness : post_action Like 42 (loadSampleData 0) = None.
Proof.
  apply (post_action_not_found Like 42 (loadSampleData 0)).
  intros p Hp. repeat destruct Hp as [<-|Hp]; simpl; try lia. destruct Hp.
Defined.

Lemma publish_blank_rejected_witness :
  publish currentUser 5 [32; 10; 9] (loadSampleData 0) = None.
Proof. apply publish_blank_rejected. repeat constructor. Defined.

Lemma publish_spec_witness :
  publish currentUser 9 (js "  hi ") [] = Some [mkPost 9 currentUser (js "hi") None 9 0 0 0 false false].
Proof. apply publish_spec. split; [discriminate|reflexivity]. Defined.

Lemma publish_fresh_id_witness :
  exists posts', publish currentUser 100 (js "x") (loadSampleData 0) = Some posts' /\
  NoDup (ids posts') /\ Forall (fun p => id p <= 100) posts'.
Proof.
  eexists; split; [reflexivity|].
  eapply (publish_fresh_id currentUser 100 (js "x") (loadSampleData 0)).
  - unfold ids; simpl. repeat constructor; simpl; intuition lia.
  - repeat constructor; simpl; lia.
  - reflexivity.
Defined.

End PostStore.
