(* ===== verification/StoreSpec.v ===== *)
(** The post-store contract of spec section 4.1 as an interface, and its
    refinement by the code.  [StoreSpec] holds the abstract store
    (counters in [nat], failures as [StoreError]) with [create] as the
    relation [a_create_ok] (any fresh id), the contract as the classes
    [PostStoreContract] / [PostStoreLaws], lemmas proved against the
    interface only, and the instance for the store of src/script.js
    ([this.posts] with [publish] and [post_action]) through the
    abstraction [alpha], whose laws are the refinement theorems; the
    law of [create] holds only when the clock value is a fresh id. *)

From Stdlib Require Import String.
From Stdlib Require Import List Bool ZArith Lia.
From S2P Require Import Prelude JsString Posts.
Import ListNotations.
Import PostStore.
Local Open Scope Z_scope.

Module StoreSpec.

Inductive Engagement := EngLike | EngReshare.
Inductive StoreError := ValidationError | NotFoundError.

(** An abstract post: counters cannot be negative by their type. *)
Record APost := mkAPost {
  a_id : Z; a_author : User; a_text : jstr; a_image : option jstr; a_created : Z;
  a_likes : nat; a_reshares : nat; a_comments : nat; a_liked : bool; a_reshared : bool }.

Definition a_has_id (i : Z) (p : APost) : bool := a_id p =? i.

(** [create(author, text)] as spec 4.1 states it, a relation between
    the store before and the outcome: blank text (after trimming) is a
    [ValidationError]; otherwise a new post goes to the head, with an id
    that no post of the store has (any such id will do), the author,
    the trimmed text, no image, the current time as timestamp and zero
    counters. *)
Definition a_create_ok (u : User) (now : Z) (text : jstr) (l : list APost)
  (r : StoreError + list APost) : Prop :=
  match trim text with
  | [] => r = inl ValidationError
  | t => exists i, ~ In i (map a_id l) /\ r = inr (mkAPost i u t None now 0 0 0 false false :: l)
  end.

(** +1 when the flag becomes true, -1 when it becomes false. *)
Definition bump (b : bool) (n : nat) : nat := if b then S n else Nat.pred n.

Definition a_flip (k : Engagement) (p : APost) : APost :=
  match k with
  | EngLike =>
      mkAPost (a_id p) (a_author p) (a_text p) (a_image p) (a_created p)
        (bump (negb (a_liked p)) (a_likes p)) (a_reshares p) (a_comments p)
        (negb (a_liked p)) (a_reshared p)
  | EngReshare =>
      mkAPost (a_id p) (a_author p) (a_text p) (a_image p) (a_created p)
        (a_likes p) (bump (negb (a_reshared p)) (a_reshares p)) (a_comments p)
        (a_liked p) (negb (a_reshared p))
  end.

Definition a_commented (p : APost) : APost :=
  mkAPost (a_id p) (a_author p) (a_text p) (a_image p) (a_created p)
    (a_likes p) (a_reshares p) (S (a_comments p)) (a_liked p) (a_reshared p).

Definition a_update (f : APost -> APost) (i : Z) (l : list APost) : StoreError + list APost :=
  match find_first (a_has_id i) l with
  | None => inl NotFoundError
  | Some _ => inr (update_first (a_has_id i) f l)
  end.

Definition a_toggle (k : Engagement) (i : Z) (l : list APost) := a_update (a_flip k) i l.
Definition a_comment (i : Z) (l : list APost) := a_update a_commented i l.

(** A set flag is backed by a count. *)
Definition a_wf (p : APost) : Prop :=
  (a_liked p = true -> (1 <= a_likes p)%nat) /\ (a_reshared p = true -> (1 <= a_reshares p)%nat).

(** ** The interface *)

Class PostStoreContract (S : Type) := {
  view : S -> list APost;
  create : User -> Z -> jstr -> S -> StoreError + S;
  toggle : Engagement -> Z -> S -> StoreError + S;
  add_comment : Z -> S -> StoreError + S;
  store_inv : S -> Prop
}.

Definition lift {S} `{PostStoreContract S} (r : StoreError + S) : StoreError + list APost :=
  match r with inl e => inl e | inr s => inr (view s) end.

Class PostStoreLaws (S : Type) `{PostStoreContract S} := {
  law_view_wf : forall s, store_inv s -> Forall a_wf (view s);
  law_create : forall u now t s, store_inv s -> (trim t = [] \/ ~ In now (map a_id (view s))) ->
    a_create_ok u now t (view s) (lift (create u now t s));
  law_toggle : forall k i s, store_inv s -> lift (toggle k i s) = a_toggle k i (view s);
  law_comment : forall i s, store_inv s -> lift (add_comment i s) = a_comment i (view s);
  law_create_inv : forall u now t s s', store_inv s -> create u now t s = inr s' -> store_inv s';
  law_toggle_inv : forall k i s s', store_inv s -> toggle k i s = inr s' -> store_inv s'
}.

(** ** Client theorems, proved against the interface only *)

Section Client.
Context {S : Type} `{PostStoreLaws S}.

Lemma lift_inl (r : StoreError + S) e : lift r = inl e -> r = inl e.
Proof. destruct r; simpl; congruence. Qed.

Lemma lift_inr (r : StoreError + S) l : lift r = inr l -> exists s, r = inr s /\ view s = l.
Proof. destruct r; simpl; [discriminate|]. intros [= <-]. eauto. Qed.

Lemma a_flip_twice k p : a_wf p -> a_flip k (a_flip k p) = p.
Proof.
  destruct p as [i u t im c l r cm lk rs]; intros [Hl Hr];
    destruct k; simpl in *; [destruct lk|destruct rs]; simpl; f_equal;
    try (destruct l; simpl in *; [specialize (Hl eq_refl)|]; lia);
    try (destruct r; simpl in *; [specialize (Hr eq_refl)|]; lia).
Qed.

Lemma client_create_blank u now t s :
  store_inv s -> trim t = [] -> create u now t s = inl ValidationError.
Proof.
  intros Hi Ht. apply lift_inl. pose proof (law_create u now t s Hi (or_introl Ht)) as L.
  unfold a_create_ok in L. rewrite Ht in L. exact L.
Qed.

Lemma client_toggle_missing k i s :
  store_inv s -> (forall p, In p (view s) -> a_id p <> i) -> toggle k i s = inl NotFoundError.
Proof.
  intros Hi Hn. apply lift_inl. rewrite law_toggle by auto. unfold a_toggle, a_update.
  rewrite (proj2 (find_first_None _ _)); [reflexivity|].
  intros p Hp. unfold a_has_id. apply Z.eqb_neq, Hn; auto.
Qed.

Lemma a_has_id_flip i k p : a_has_id i (a_flip k p) = a_has_id i p.
Proof. destruct k; reflexivity. Qed.

Lemma client_toggle_twice k i s s' :
  store_inv s -> toggle k i s = inr s' ->
  exists s'', toggle k i s' = inr s'' /\ view s'' = view s.
Proof.
  intros Hi Ht. pose proof (law_toggle k i s Hi) as L. rewrite Ht in L. simpl in L.
  unfold a_toggle, a_update in L. destruct (find_first _ (view s)) as [p|] eqn:E; [|discriminate].
  injection L as L.
  assert (Hi' : store_inv s') by (eapply law_toggle_inv; eauto).
  pose proof (law_toggle k i s' Hi') as L'. unfold a_toggle, a_update in L'.
  rewrite L, (find_first_update_first _ _ _ p) in L' by first [exact E | intros y; rewrite a_has_id_flip; auto].
  apply lift_inr in L' as (s'' & -> & V). exists s''. split; [reflexivity|].
  rewrite V, update_first_twice by (intros y; rewrite a_has_id_flip; auto).
  apply update_first_id_in. intros x Hx _. apply a_flip_twice.
  pose proof (law_view_wf s Hi) as W. rewrite Forall_forall in W. auto.
Qed.

End Client.

(** ** The store of src/script.js implements the contract *)

(** Abstraction of a post object: counters read as naturals. *)
Definition alpha (p : Post) : APost :=
  mkAPost (id p) (user p) (content p) (image p) (timestamp p)
    (Z.to_nat (likes p)) (Z.to_nat (retweets p)) (Z.to_nat (comments p)) (liked p) (retweeted p).

Definition action_of (k : Engagement) : Action :=
  match k with EngLike => Like | EngReshare => Retweet end.

(** The early [return]s of [createPost] and [handlePostAction] read as
    the contract's errors. *)
Definition or_error {A} (e : StoreError) (o : option A) : StoreError + A :=
  match o with None => inl e | Some x => inr x end.

Definition js_create (u : User) (now : Z) (t : jstr) (posts : list Post) :=
  or_error ValidationError (publish u now t posts).
Definition js_toggle (k : Engagement) (i : Z) (posts : list Post) :=
  or_error NotFoundError (post_action (action_of k) i posts).
Definition js_comment (i : Z) (posts : list Post) :=
  or_error NotFoundError (post_action Comment i posts).

Definition map_result (r : StoreError + list Post) : StoreError + list APost :=
  match r with inl e => inl e | inr l => inr (map alpha l) end.

Lemma alpha_flip k p : post_wf p -> alpha (apply_action (action_of k) p) = a_flip k (alpha p).
Proof.
  unfold post_wf, post_wfb. destruct p as [i u c im t l r cm lk rt]; simpl.
  intros H; bool_simpl.
  destruct k, lk, rt; unfold alpha, a_flip, bump; simpl; f_equal; lia.
Qed.

Lemma alpha_comment p : post_wf p -> alpha (apply_action Comment p) = a_commented (alpha p).
Proof.
  unfold post_wf, post_wfb. destruct p as [i u c im t l r cm lk rt]; simpl.
  intros H; bool_simpl. unfold alpha, a_commented; simpl. f_equal; lia.
Qed.

Lemma alpha_wf p : post_wf p -> a_wf (alpha p).
Proof.
  unfold post_wf, post_wfb, a_wf. destruct p as [i u c im t l r cm lk rt]; simpl.
  intros H; bool_simpl. destruct lk, rt; simpl in *; split; intros; try discriminate; lia.
Qed.

Lemma refine_update a f i posts :
  store_wf posts -> (forall p, post_wf p -> alpha (apply_action a p) = f (alpha p)) ->
  map_result (or_error NotFoundError (post_action a i posts)) = a_update f i (map alpha posts).
Proof.
  intros Hwf Hf. unfold post_action, a_update.
  rewrite (find_first_map (has_id i) (a_has_id i) alpha) by reflexivity.
  destruct (find_first (has_id i) posts); simpl; [|reflexivity].
  f_equal. apply update_first_map; [reflexivity|].
  intros x Hx _. apply Hf. unfold store_wf in Hwf; rewrite Forall_forall in Hwf; auto.
Qed.

Lemma map_a_id_alpha posts : map a_id (map alpha posts) = map id posts.
Proof. rewrite map_map. reflexivity. Qed.

(** Publishing meets [create] exactly when the text is blank or the
    clock value is not already an id. *)
Lemma refine_create u now t posts :
  a_create_ok u now t (map alpha posts) (map_result (js_create u now t posts)) <->
  (trim t = [] \/ ~ In now (map id posts)).
Proof.
  unfold a_create_ok, js_create, publish. rewrite map_a_id_alpha.
  destruct (trim t) as [|c cs]; simpl.
  - split; auto.
  - split.
    + intros (i & Hi & E). injection E as <-. right; exact Hi.
    + intros [E|Hn]; [discriminate|]. exists now. split; [exact Hn|reflexivity].
Qed.

(** C24: on a well-formed store, liking or retweeting refines the
    contract's [toggle]: same outcome ([NotFoundError] exactly when the
    id is absent) and the abstract view of the new store is the
    abstract toggle of the old view. *)
Theorem post_action_refines_toggle k i posts :
  store_wf posts -> map_result (js_toggle k i posts) = a_toggle k i (map alpha posts).
Proof. intros Hwf. apply refine_update; auto. intros p; apply alpha_flip. Qed.

(** C25: publishing refines the contract's [create] (spec 4.1: a fresh
    unique id) exactly when the text is blank or the clock value
    [Date.now()] is not the id of a post already in the store; when
    two posts are published in the same millisecond the second one
    breaks the contract. *)
Theorem publish_refines_create u now t posts :
  a_create_ok u now t (map alpha posts) (map_result (js_create u now t posts)) <->
  (trim t = [] \/ ~ In now (map id posts)).
Proof. apply refine_create. Qed.

(** C26: on a well-formed store, a comment refines the contract's
    [incrementComment]. *)
Theorem post_action_refines_comment i posts :
  store_wf posts -> map_result (js_comment i posts) = a_comment i (map alpha posts).
Proof. intros Hwf. apply refine_update; auto. apply alpha_comment. Qed.

#[export] Instance js_store : PostStoreContract (list Post) := {
  view := map alpha; create := js_create; toggle := js_toggle;
  add_comment := js_comment; store_inv := store_wf }.

#[export] Instance js_store_laws : PostStoreLaws (list Post).
Proof.
  split; simpl.
  - intros s Hs. apply Forall_map. eapply Forall_impl; [|exact Hs]. apply alpha_wf.
  - intros u now t s _ H. rewrite map_a_id_alpha in H. apply refine_create, H.
  - intros k i s Hs. apply refine_update; auto. intros p; apply alpha_flip.
  - intros i s Hs. apply refine_update; auto. apply alpha_comment.
  - intros u now t s s' Hs H. unfold js_create, or_error in H.
    destruct (publish _ _ _ _) eqn:E; inversion H; subst.
    eapply publish_preserves_wf; eauto.
  - intros k i s s' Hs H. unfold js_toggle, or_error in H.
    destruct (post_action _ _ _) eqn:E; inversion H; subst.
    eapply store_wf_post_action; eauto.
Qed.

(** ** Witnesses *)

Lemma post_action_refines_toggle_witness :
  map_result (js_toggle EngLike 2 (loadSampleData 0)) = a_toggle EngLike 2 (map alpha (loadSampleData 0)).
Proof. apply post_action_refines_toggle. apply sample_wf. Defined.

Lemma post_action_refines_comment_witness :
  map_result (js_comment 9 (loadSampleData 0)) = a_comment 9 (map alpha (loadSampleData 0)).
Proof. apply post_action_refines_comment. apply sample_wf. Defined.

End StoreSpec.
