(* ===== verification/Search.v ===== *)
(** [handleSearch] (src/script.js lines 242-251): the query guard and
    the case-insensitive filter over post text and author name.
    Properties: short queries change nothing, the result is exactly the
    matching posts in store order, and the result depends on the query
    only up to case ([Proper] for [ci_eq]). *)

From Stdlib Require Import String.
From Stdlib Require Import List Bool ZArith Lia Morphisms RelationClasses.
From S2P Require Import Prelude JsString Posts.
Import ListNotations.
Import PostStore.
Local Open Scope Z_scope.

Module Search.

(** The arrow function of lines 245-248. *)
Definition matches (query : jstr) (post : Post) : bool :=
  includes (toLowerCase (content post)) (toLowerCase query)
  || includes (toLowerCase (name (user post))) (toLowerCase query).

Definition search_filter (query : jstr) (posts : list Post) : list Post :=
  filter (matches query) posts.

(** Lines 242-251.  [None] is the early [return] of line 243: nothing is
    rendered and the feed keeps whatever it showed; [Some l] is the list
    passed to [renderPosts]. *)
Definition handleSearch (query : jstr) (posts : list Post) : option (list Post) :=
  if js_length query <? 2 then None else Some (search_filter query posts).

(** Two queries that differ only in case. *)
Definition ci_eq (q1 q2 : jstr) : Prop := toLowerCase q1 = toLowerCase q2.

#[export] Instance ci_eq_equiv : Equivalence ci_eq.
Proof. unfold ci_eq; split; repeat intro; congruence. Qed.

Lemma js_length_toLowerCase q : js_length (toLowerCase q) = js_length q.
Proof. unfold js_length. rewrite length_toLowerCase. reflexivity. Qed.

Lemma ci_eq_js_length q1 q2 : ci_eq q1 q2 -> js_length q1 = js_length q2.
Proof. intros H. rewrite <- js_length_toLowerCase, H, js_length_toLowerCase. reflexivity. Qed.

#[export] Instance matches_proper : Proper (ci_eq ==> eq ==> eq) matches.
Proof. intros q1 q2 Hq p ? <-. unfold matches. rewrite Hq. reflexivity. Qed.

#[export] Instance search_filter_proper : Proper (ci_eq ==> eq ==> eq) search_filter.
Proof.
  intros q1 q2 Hq l ? <-. unfold search_filter. apply filter_ext_in.
  intros p _. apply matches_proper; auto.
Qed.

Lemma matches_spec q p :
  matches q p = true <->
  (exists a b, toLowerCase (content p) = a ++ toLowerCase q ++ b)
  \/ (exists a b, toLowerCase (name (user p)) = a ++ toLowerCase q ++ b).
Proof. unfold matches. rewrite orb_true_iff, !includes_spec. reflexivity. Qed.

(** C10: a query shorter than two code units is ignored: [handleSearch]
    returns before rendering, so the feed keeps showing what it showed
    (it does not show "no results", and a cleared search box does not
    bring the full feed back). *)
Theorem handleSearch_short_query q posts :
  js_length q < 2 -> handleSearch q posts = None.
Proof. intros H. unfold handleSearch. apply Z.ltb_lt in H. rewrite H. reflexivity. Qed.

(** C11: a query of two or more code units renders exactly the posts
    whose text or author name contains the query, compared in lower
    case, in store order. *)
Theorem handleSearch_spec q posts :
  2 <= js_length q ->
  exists r, handleSearch q posts = Some r /\ subseq r posts /\
    forall p, In p r <-> In p posts /\
      ((exists a b, toLowerCase (content p) = a ++ toLowerCase q ++ b)
       \/ (exists a b, toLowerCase (name (user p)) = a ++ toLowerCase q ++ b)).
Proof.
  intros H. exists (search_filter q posts). unfold handleSearch.
  destruct (Z.ltb_spec (js_length q) 2); [lia|]. split; [reflexivity|]. split.
  - apply filter_subseq.
  - intros p. unfold search_filter. rewrite filter_In, matches_spec. reflexivity.
Qed.

(** C12: the search outcome depends on the query only up to case:
    ["INDIA"] and ["india"] give the same feed. *)
Theorem handleSearch_case_insensitive q1 q2 posts :
  ci_eq q1 q2 -> handleSearch q1 posts = handleSearch q2 posts.
Proof.
  intros H. unfold handleSearch. rewrite (ci_eq_js_length _ _ H), H. reflexivity.
Qed.

Lemma handleSearch_short_query_witness : handleSearch (js "a") (loadSampleData 0) = None.
Proof. apply handleSearch_short_query. reflexivity. Defined.

Lemma handleSearch_spec_witness :
  exists r, handleSearch (js "goa") (loadSampleData 0) = Some r /\ subseq r (loadSampleData 0) /\
    forall p, In p r <-> In p (loadSampleData 0) /\
      ((exists a b, toLowerCase (content p) = a ++ toLowerCase (js "goa") ++ b)
       \/ (exists a b, toLowerCase (name (user p)) = a ++ toLowerCase (js "goa") ++ b)).
Proof. apply handleSearch_spec. unfold js_length. simpl. lia. Defined.

Lemma handleSearch_case_insensitive_witness :
  handleSearch (js "INDIA") (loadSampleData 0) = handleSearch (js "india") (loadSampleData 0).
Proof. apply handleSearch_case_insensitive. reflexivity. Defined.

End Search.
