(* ===== verification/Format.v ===== *)
(** The text formatters of [LinkUpApp]: [formatTime] (src/script.js
    lines 550-562) and [formatPostContent] (lines 543-548).  [formatTime]
    is proved to pick its label by thresholds on the elapsed time; the
    two global regex replacements are modelled as left-to-right scans
    with fuel, proved adequate, and shown to leave text without
    hashtags or mentions (HTML included) unchanged. *)

From Stdlib Require Import String.
From Stdlib Require Import List Bool ZArith Lia.
From S2P Require Import Prelude JsString.
Import ListNotations.
Local Open Scope Z_scope.

Module TimeFormat.

(** Lines 550-562.  [now] is [new Date()] at render time; [Date]
    subtraction gives milliseconds; [Math.floor] of a quotient of
    integers is [Z.div] (exact for elapsed times below 2^53 / 60000
    minutes).  [toLocaleDateString] depends on the browser locale and is
    a parameter. *)
Definition formatTime (toLocaleDateString : Z -> jstr) (now timestamp : Z) : jstr :=
  let diff := now - timestamp in
  let minutes := diff / 60000 in
  let hours := diff / 3600000 in
  let days := diff / 86400000 in
  if minutes <? 1 then js "Just now"
  else if minutes <? 60 then int_to_dec minutes ++ js "m"
  else if hours <? 24 then int_to_dec hours ++ js "h"
  else if days <? 7 then int_to_dec days ++ js "d"
  else toLocaleDateString timestamp.

Lemma div_ltb a b k : 0 < b -> (a / b <? k) = (a <? k * b).
Proof.
  intros Hb. pose proof (Z_div_floor_bounds a b Hb) as Hfl.
  destruct (Z.ltb_spec (a / b) k), (Z.ltb_spec a (k * b)); auto; try nia.
Qed.

(** C16: the label is chosen by the elapsed time [d = now - timestamp]
    alone: under one minute (and for timestamps in the future) "Just
    now", then whole minutes below one hour, whole hours below one day,
    whole days below seven days, and the locale date from seven days on;
    each lower edge belongs to the larger unit (60 minutes is "1h"). *)
Theorem formatTime_thresholds loc now ts :
  let d := now - ts in
  formatTime loc now ts =
    if d <? 60000 then js "Just now"
    else if d <? 3600000 then int_to_dec (d / 60000) ++ js "m"
    else if d <? 86400000 then int_to_dec (d / 3600000) ++ js "h"
    else if d <? 604800000 then int_to_dec (d / 86400000) ++ js "d"
    else loc ts.
Proof.
  intros d. unfold formatTime. fold d. rewrite !div_ltb by lia. reflexivity.
Qed.

Definition minute := 60000.
Definition hour := 3600000.
Definition day := 86400000.

(** the boundary scenarios: 59 s is "Just now", 61 s "1m", 59 min
    "59m", 60 min "1h", 23 h 59 min "23h", 24 h "1d", 6 d 23 h "6d",
    7 d the locale date. *)
Theorem formatTime_scenarios loc now :
  formatTime loc now (now - 59000) = js "Just now" /\
  formatTime loc now (now - 61000) = js "1m" /\
  formatTime loc now (now - 59 * minute) = js "59m" /\
  formatTime loc now (now - 60 * minute) = js "1h" /\
  formatTime loc now (now - (23 * hour + 59 * minute)) = js "23h" /\
  formatTime loc now (now - 24 * hour) = js "1d" /\
  formatTime loc now (now - (6 * day + 23 * hour)) = js "6d" /\
  formatTime loc now (now - 7 * day) = loc (now - 7 * day).
Proof.
  unfold formatTime, minute, hour, day.
  repeat split; rewrite Z.sub_sub_distr, Z.sub_diag; reflexivity.
Qed.

End TimeFormat.

Module ContentFormat.

(** [<span style="color: var(--accent-color);">] and [</span>]. *)
Definition tag_open : jstr :=
  js "<span style=" ++ [34] ++ js "color: var(--accent-color);" ++ [34] ++ js ">".
Definition tag_close : jstr := js "</span>".

(** The longest run of [\w] units at the head of a string ([\w+] is
    greedy). *)
Fixpoint span_word (s : jstr) : jstr * jstr :=
  match s with
  | [] => ([], [])
  | c :: t => if is_word_char c then let (w, r) := span_word t in (c :: w, r) else ([], s)
  end.

(** [s.replace(/<sigil>(\w+)/g, '<span ...><sigil>$1</span>')]: scan
    left to right; at a sigil followed by at least one word unit, wrap
    the sigil and the whole run and continue after it, otherwise copy
    one unit.  The fuel bounds the number of steps. *)
Fixpoint replace_tag (fuel : nat) (sigil : Z) (s : jstr) : jstr :=
  match fuel with
  | O => s
  | S f =>
      match s with
      | [] => []
      | c :: t =>
          if c =? sigil then
            match span_word t with
            | ([], _) => c :: replace_tag f sigil t
            | (w, r) => tag_open ++ [sigil] ++ w ++ tag_close ++ replace_tag f sigil r
            end
          else c :: replace_tag f sigil t
      end
  end.

Definition replace_all (sigil : Z) (s : jstr) : jstr := replace_tag (length s) sigil s.

(** Lines 543-548: hashtags ([#] = 35) first, then mentions ([@] = 64). *)
Definition formatPostContent (content : jstr) : jstr :=
  replace_all 64 (replace_all 35 content).

Lemma span_word_length s :
  (length (fst (span_word s)) + length (snd (span_word s)) = length s)%nat.
Proof.
  induction s as [|c t IH]; simpl; auto.
  destruct (is_word_char c); simpl; auto.
  destruct (span_word t) as [w r]; simpl in *; lia.
Qed.

(** Any fuel of at least the length of the string gives the same result:
    the scan terminates within [length s] steps. *)
Lemma replace_tag_fuel f1 f2 sigil s :
  (length s <= f1)%nat -> (length s <= f2)%nat ->
  replace_tag f1 sigil s = replace_tag f2 sigil s.
Proof.
  revert f2 s; induction f1 as [|f1 IH]; intros [|f2] s H1 H2;
    destruct s as [|c t]; simpl in *; try lia; try reflexivity.
  pose proof (span_word_length t) as Hl.
  destruct (c =? sigil); [|f_equal; apply IH; lia].
  destruct (span_word t) as [[|x w] r]; simpl in *; [f_equal; apply IH; lia|].
  rewrite (IH f2 r) by lia. reflexivity.
Qed.

Lemma replace_tag_no_sigil f sigil s :
  ~ In sigil s -> replace_tag f sigil s = s.
Proof.
  revert s; induction f as [|f IH]; intros [|c t] Hs; simpl; auto.
  destruct (Z.eqb_spec c sigil) as [->|Hne]; [exfalso; apply Hs; left; auto|].
  rewrite IH; auto. intros Hin; apply Hs; right; auto.
Qed.

(** C17: text with no [#] and no [@] is emitted unchanged, markup
    included: the post text reaches [innerHTML] (line 432) without any
    HTML escaping. *)
Theorem formatPostContent_no_tags s :
  ~ In 35 s -> ~ In 64 s -> formatPostContent s = s.
Proof.
  intros H1 H2. unfold formatPostContent, replace_all.
  rewrite (replace_tag_no_sigil _ 35 s H1). apply replace_tag_no_sigil; auto.
Qed.

(** formatting is not idempotent: formatting an already formatted
    hashtag wraps it a second time. *)
Theorem formatPostContent_not_idempotent :
  formatPostContent (formatPostContent (js "#India"))
  <> formatPostContent (js "#India").
Proof. vm_compute. congruence. Qed.

Lemma formatPostContent_no_tags_witness :
  formatPostContent (js "<img src=x onerror=alert(1)>") = js "<img src=x onerror=alert(1)>".
Proof. apply formatPostContent_no_tags; vm_compute; intuition discriminate. Defined.

End ContentFormat.
