(* ===== verification/NumberFormat.v ===== *)
(** [formatNumber] (src/script.js lines 574-578) and the profile stats
    that use it ([updateUserProfile], lines 564-572).  The quotient
    [num / 1000] is an IEEE-754 double: it is modelled exactly, as the
    rational [a / b] rounded to nearest-even with a 53-bit significand
    ([to_double]); [Number.prototype.toFixed(1)] is modelled by its
    ECMA-262 definition on that exact value (the integer [n] closest to
    [10 x], the larger one on a tie).  Everything is integer arithmetic
    in [Z] and computes. *)

From Stdlib Require Import String.
From Stdlib Require Import List Bool ZArith Lia.
From S2P Require Import Prelude JsString.
Import ListNotations.
Local Open Scope Z_scope.

Module NumberFormat.

(** [a / b >= 2 ^ e] for positive [a], [b]. *)
Definition ratio_ge (a b e : Z) : bool :=
  if 0 <=? e then b * 2 ^ e <=? a else b <=? a * 2 ^ (- e).

(** [floor (log2 (a / b))]: the estimate [log2 a - log2 b] is exact or
    one too large. *)
Definition flog2 (a b : Z) : Z :=
  let k := Z.log2 a - Z.log2 b in if ratio_ge a b k then k else k - 1.

(** [n / d] rounded to the nearest integer, ties to even. *)
Definition round_div_even (n d : Z) : Z :=
  let q := n / d in
  let r := n mod d in
  if 2 * r <? d then q
  else if d <? 2 * r then q + 1
  else if Z.even q then q else q + 1.

(** The double nearest to [a / b] (positive, normal range) as
    [m * 2 ^ e] with [2^52 <= m <= 2^53]. *)
Definition to_double (a b : Z) : Z * Z :=
  let e := flog2 a b - 52 in
  if 0 <=? e then (round_div_even a (b * 2 ^ e), e)
  else (round_div_even (a * 2 ^ (- e)) b, e).

(** [n] of ECMA-262 [toFixed(1)] for [x = m * 2 ^ e >= 0]: the integer
    closest to [10 x], the larger one on a tie, i.e. [floor (10 x + 1/2)]. *)
Definition fixed1_digits (m e : Z) : Z :=
  if 0 <=? e then 10 * m * 2 ^ e else (20 * m + 2 ^ (- e)) / 2 ^ (1 - e).

(** The string of [toFixed(1)]: the digits of [n] with a point before
    the last one, a leading zero when [n < 10]. *)
Definition fixed1_string (n : Z) : jstr :=
  let ds := nat_to_dec n in
  let ds := if n <? 10 then 48 :: ds else ds in
  firstn (length ds - 1) ds ++ [46] ++ skipn (length ds - 1) ds.

Definition toFixed1 (x : Z * Z) : jstr := fixed1_string (fixed1_digits (fst x) (snd x)).

(** Lines 574-578 on the integer counters it is called with. *)
Definition formatNumber (num : Z) : jstr :=
  if 1000000 <=? num then toFixed1 (to_double num 1000000) ++ js "M"
  else if 1000 <=? num then toFixed1 (to_double num 1000) ++ js "K"
  else int_to_dec num.

(** Lines 564-572: the three stats, when the page has at least three
    [.stat-number] elements. *)
Definition updateUserProfile (following followers posts : Z) (n_stats : nat)
  : option (jstr * jstr * jstr) :=
  if (3 <=? n_stats)%nat
  then Some (formatNumber following, formatNumber followers, formatNumber posts)
  else None.

(** ** Rounding facts *)

Lemma round_div_even_spec n d : 0 < d -> 2 * Z.abs (round_div_even n d * d - n) <= d.
Proof.
  intros Hd. unfold round_div_even.
  pose proof (Z.div_mod n d ltac:(lia)) as Hn. pose proof (Z.mod_pos_bound n d Hd) as Hr.
  set (q := n / d) in *. set (r := n mod d) in *.
  destruct (Z.ltb_spec (2 * r) d); [lia|].
  destruct (Z.ltb_spec d (2 * r)); [lia|].
  destruct (Z.even q); lia.
Qed.

Lemma log2_bounds a : 0 < a -> 2 ^ Z.log2 a <= a < 2 ^ (Z.log2 a + 1).
Proof. intros Ha. pose proof (Z.log2_spec a Ha). rewrite <- Z.add_1_r in *. lia. Qed.

(** For [b <= a], [flog2 a b] is the exponent [f >= 0] with
    [b * 2^f <= a < b * 2^(f+1)]. *)
Lemma flog2_spec a b :
  0 < b <= a -> 0 <= flog2 a b /\ b * 2 ^ flog2 a b <= a < b * 2 ^ (flog2 a b + 1).
Proof.
  intros Hb. pose proof (log2_bounds a ltac:(lia)) as [Ha1 Ha2].
  pose proof (log2_bounds b ltac:(lia)) as [Hb1 Hb2].
  assert (Hk : Z.log2 b <= Z.log2 a) by (apply Z.log2_le_mono; lia).
  pose proof (Z.log2_nonneg b) as Hlb.
  set (la := Z.log2 a) in *. set (lb := Z.log2 b) in *.
  assert (Hup : a < b * 2 ^ (la - lb + 1)).
  { replace (la + 1) with (lb + (la - lb + 1)) in Ha2 by lia.
    rewrite Z.pow_add_r in Ha2 by lia.
    assert (0 < 2 ^ (la - lb + 1)) by (apply Z.pow_pos_nonneg; lia). nia. }
  unfold flog2, ratio_ge. fold la lb.
  destruct (Z.leb_spec 0 (la - lb)) as [H0|H0]; [|lia].
  destruct (Z.leb_spec (b * 2 ^ (la - lb)) a) as [H1|H1].
  - split; [lia|split; auto].
  - assert (Hpos : 1 <= la - lb).
    { destruct (Z.eq_dec (la - lb) 0) as [E|E]; [|lia]. rewrite E in H1. simpl in H1. lia. }
    split; [lia|split].
    + replace la with (lb + 1 + (la - lb - 1)) in Ha1 by lia.
      rewrite Z.pow_add_r in Ha1 by lia. rewrite Z.pow_add_r in Ha1 by lia.
      assert (b < 2 ^ lb * 2 ^ 1) by (rewrite <- Z.pow_add_r by lia; lia).
      assert (0 < 2 ^ (la - lb - 1)) by (apply Z.pow_pos_nonneg; lia). nia.
    + replace (la - lb - 1 + 1) with (la - lb) by lia. lia.
Qed.

Lemma flog2_le a b k :
  0 < b <= a -> a < b * 2 ^ (k + 1) -> 0 <= k -> flog2 a b <= k.
Proof.
  intros Hb Ha Hk. destruct (flog2_spec a b Hb) as (H0 & H1 & _).
  destruct (Z.le_gt_cases (flog2 a b) k) as [|Hgt]; auto.
  assert (2 ^ (k + 1) <= 2 ^ flog2 a b) by (apply Z.pow_le_mono_r; lia).
  assert (0 < 2 ^ (k + 1)) by (apply Z.pow_pos_nonneg; lia). nia.
Qed.

(** The digits [toFixed(1)] produces for [a / b] are within half a unit
    of the last place of [10 a / b], provided the double has at least
    [log2 (10 b)] fraction bits. *)
Lemma fixed1_error a b :
  0 < b <= a -> 10 * b < 2 ^ (52 - flog2 a b) -> flog2 a b < 52 ->
  2 * Z.abs (b * fixed1_digits (fst (to_double a b)) (snd (to_double a b)) - 10 * a) <= b.
Proof.
  intros Hb HD Hf. unfold to_double.
  destruct (Z.leb_spec 0 (flog2 a b - 52)) as [H|_]; [lia|]. cbn [fst snd].
  set (E := 52 - flog2 a b) in *. replace (- (flog2 a b - 52)) with E by lia.
  set (D := 2 ^ E) in *. assert (HE : 0 < E) by lia.
  set (m := round_div_even (a * D) b).
  pose proof (round_div_even_spec (a * D) b ltac:(lia)) as Hm. fold m in Hm.
  unfold fixed1_digits. destruct (Z.leb_spec 0 (flog2 a b - 52)) as [H|_]; [lia|].
  replace (- (flog2 a b - 52)) with E by lia. replace (1 - (flog2 a b - 52)) with (E + 1) by lia.
  rewrite Z.pow_add_r by lia. fold D. change (2 ^ 1) with 2.
  assert (HD0 : 0 < D) by (apply Z.pow_pos_nonneg; lia).
  pose proof (Z_div_floor_bounds (20 * m + D) (D * 2) ltac:(lia)) as Hfl.
  set (n := (20 * m + D) / (D * 2)) in *.
  assert (Hlo : 0 <= b * (2 * n) - 20 * a + b).
  { destruct (Z.le_gt_cases 0 (b * (2 * n) - 20 * a + b)) as [|Hneg]; [auto|exfalso].
    assert (D * (b * (2 * n) - 20 * a + b) <= - D) by nia. nia. }
  assert (Hhi : b * (2 * n) - 20 * a - b <= 0).
  { destruct (Z.le_gt_cases (b * (2 * n) - 20 * a - b) 0) as [|Hpos]; [auto|exfalso].
    assert (D <= D * (b * (2 * n) - 20 * a - b)) by nia. nia. }
  lia.
Qed.

Lemma pow2_ge k j : 0 <= j <= k -> 2 ^ j <= 2 ^ k.
Proof. intros H. apply Z.pow_le_mono_r; lia. Qed.

Lemma formatNumber_K num :
  1000 <= num < 1000000 ->
  formatNumber num = toFixed1 (to_double num 1000) ++ js "K" /\
  2 * Z.abs (1000 * fixed1_digits (fst (to_double num 1000)) (snd (to_double num 1000)) - 10 * num) <= 1000.
Proof.
  intros H. unfold formatNumber.
  destruct (Z.leb_spec 1000000 num); [lia|]. destruct (Z.leb_spec 1000 num); [|lia].
  split; [reflexivity|].
  assert (Hf : flog2 num 1000 <= 9) by (apply flog2_le; [lia|simpl; lia|lia]).
  pose proof (flog2_spec num 1000 ltac:(lia)) as [Hf0 _].
  pose proof (pow2_ge (52 - flog2 num 1000) 43 ltac:(lia)).
  apply fixed1_error; [lia| |lia]. assert (10000 < 2 ^ 43) by reflexivity. lia.
Qed.

Lemma formatNumber_M num :
  1000000 <= num < 1000000000000 ->
  formatNumber num = toFixed1 (to_double num 1000000) ++ js "M" /\
  2 * Z.abs (1000000 * fixed1_digits (fst (to_double num 1000000)) (snd (to_double num 1000000))
             - 10 * num) <= 1000000.
Proof.
  intros H. unfold formatNumber. destruct (Z.leb_spec 1000000 num); [|lia].
  split; [reflexivity|].
  assert (Hf : flog2 num 1000000 <= 19) by (apply flog2_le; [lia|simpl; lia|lia]).
  pose proof (flog2_spec num 1000000 ltac:(lia)) as [Hf0 _].
  pose proof (pow2_ge (52 - flog2 num 1000000) 33 ltac:(lia)).
  apply fixed1_error; [lia| |lia]. assert (10000000 < 2 ^ 33) by reflexivity. lia.
Qed.

(** C18: the abbreviated forms are accurate: for a count from one
    thousand to below one million, [formatNumber] prints "<d>K" where
    the one-decimal number [d] is within 0.05 of [count / 1000]; from
    one million to below 10^12 it prints "<d>M" with [d] within 0.05 of
    [count / 10^6].  This holds through the double division and
    [toFixed(1)]. *)
Theorem formatNumber_abbrev_accuracy num :
  (1000 <= num < 1000000 -> exists n,
     formatNumber num = fixed1_string n ++ js "K" /\ 2 * Z.abs (1000 * n - 10 * num) <= 1000) /\
  (1000000 <= num < 1000000000000 -> exists n,
     formatNumber num = fixed1_string n ++ js "M" /\ 2 * Z.abs (1000000 * n - 10 * num) <= 1000000).
Proof.
  split; intros H.
  - destruct (formatNumber_K num H) as [E B]. eexists. split; [exact E|exact B].
  - destruct (formatNumber_M num H) as [E B]. eexists. split; [exact E|exact B].
Qed.

(** C19: the thousands form runs past its range: every count from
    999951 to 999999 is below the million threshold but prints
    "1000.0K", never "1.0M".  This follows from the accuracy bound:
    the printed tenths [n] satisfy [|1000 n - 10 num| <= 500], which
    leaves only [n = 10000]. *)
Theorem formatNumber_K_overflow num :
  999951 <= num < 1000000 -> formatNumber num = js "1000.0K".
Proof.
  intros H. destruct (formatNumber_K num ltac:(lia)) as [E B]. rewrite E. unfold toFixed1.
  assert (Hn : fixed1_digits (fst (to_double num 1000)) (snd (to_double num 1000)) = 10000) by lia.
  rewrite Hn. reflexivity.
Qed.

(** The examples of the spec and the tie that does not round half up:
    1150 / 1000 is the double just below 1.15, so [toFixed(1)] gives
    "1.1"; the count 999950 also prints "1000.0K". *)
Lemma formatNumber_examples :
  formatNumber 999 = js "999" /\ formatNumber 1200 = js "1.2K" /\ formatNumber 5800000 = js "5.8M" /\
  formatNumber 1150 = js "1.1K" /\ formatNumber 1250 = js "1.3K" /\ formatNumber 999950 = js "1000.0K".
Proof. vm_compute. repeat split. Qed.

Lemma formatNumber_abbrev_accuracy_witness :
  exists n, formatNumber 1200 = fixed1_string n ++ js "K" /\ 2 * Z.abs (1000 * n - 10 * 1200) <= 1000.
Proof. apply (proj1 (formatNumber_abbrev_accuracy 1200)). lia. Defined.

Lemma formatNumber_K_overflow_witness : formatNumber 999999 = js "1000.0K".
Proof. apply formatNumber_K_overflow. lia. Defined.

End NumberFormat.
