(* ===== verification/Fallback.v ===== *)
(** [setupImageFallbacks] (src/script.js lines 457-471), called by
    [init] and after every [renderPosts].  Each image is handled on its
    own: the method reads and writes only that image's
    [dataset.fallbackApplied], its listeners and its [src], so the
    model is one image ([Img]) and the events that reach it: a call of
    [setupImageFallbacks] and an [error] event, which runs the image's
    [error] listeners in registration order.  [dataset.fallbackApplied]
    is only ever absent or ['true'], kept as a [bool].
    [Math.floor(Math.random() * 100000)] drawn by the [k]-th listener
    of an event is a parameter [rnd k]. *)

From Stdlib Require Import String List Bool ZArith Lia.
From S2P Require Import Prelude.
From S2P Require Import JsString.
Import ListNotations.
Open Scope Z_scope.

Module Fallback.

Record Img := mkImg {
  fallbackApplied : bool;   (** [img.dataset.fallbackApplied === 'true'] *)
  listeners : nat;          (** [error] listeners added by [fallbackFor] *)
  src : jstr;
  naturalWidth : Z;
  clientWidth : Z
}.

(** [Math.max(img.naturalWidth || 0, img.clientWidth || 0, 100)]; on an
    integer width [w || 0] is [w]. *)
Definition fallback_size (img : Img) : Z :=
  Z.max (Z.max (naturalWidth img) (clientWidth img)) 100.

Definition rounded_size (size : Z) : Z :=
  if size <=? 60 then 60 else if size <=? 100 then 100 else 150.

Definition avatar_url (rounded r : Z) : jstr :=
  js "https://i.pravatar.cc/" ++ int_to_dec rounded ++ js "?u=cricket-" ++ int_to_dec r.

(** The body of the [error] listener; [r] is the random draw. *)
Definition on_error (r : Z) (img : Img) : Img :=
  if fallbackApplied img then img
  else mkImg true (listeners img)
         (avatar_url (rounded_size (fallback_size img)) r)
         (naturalWidth img) (clientWidth img).

(** [fallbackFor]: the guard, then one more listener. *)
Definition fallbackFor (img : Img) : Img :=
  if fallbackApplied img then img
  else mkImg false (S (listeners img)) (src img) (naturalWidth img) (clientWidth img).

(** [document.querySelectorAll('img').forEach(fallbackFor)]. *)
Definition setupImageFallbacks (imgs : list Img) : list Img := map fallbackFor imgs.

(** An [error] event: every registered listener runs, in order. *)
Definition dispatch_error (rnd : nat -> Z) (img : Img) : Img :=
  fold_left (fun im k => on_error (rnd k) im) (seq 0 (listeners img)) img.

Inductive FEvent := EvSetup | EvError (rnd : nat -> Z).

Definition fstep (e : FEvent) (img : Img) : Img :=
  match e with
  | EvSetup => fallbackFor img
  | EvError rnd => dispatch_error rnd img
  end.

Fixpoint frun (es : list FEvent) (img : Img) : Img :=
  match es with [] => img | e :: es' => frun es' (fstep e img) end.

(** How many events of a run change the image's [src]. *)
Fixpoint src_changes (es : list FEvent) (img : Img) : nat :=
  match es with
  | [] => 0
  | e :: es' =>
      ((if jstr_eqb (src (fstep e img)) (src img) then 0 else 1)
       + src_changes es' (fstep e img))%nat
  end.

(** ** Lemmas *)

Lemma on_error_applied r img : fallbackApplied img = true -> on_error r img = img.
Proof. unfold on_error. intros ->. reflexivity. Qed.

Lemma fold_on_error_applied (rnd : nat -> Z) ks img :
  fallbackApplied img = true -> fold_left (fun im k => on_error (rnd k) im) ks img = img.
Proof.
  revert img; induction ks as [|k ks IH]; intros img H; simpl; auto.
  rewrite on_error_applied by exact H. auto.
Qed.

(** After the fallback the image is frozen: every event leaves it as
    it is. *)
Lemma fstep_applied e img : fallbackApplied img = true -> fstep e img = img.
Proof.
  intros H. destruct e; simpl; [unfold fallbackFor; rewrite H; reflexivity|].
  apply fold_on_error_applied; exact H.
Qed.

Lemma frun_applied es img : fallbackApplied img = true -> frun es img = img.
Proof. induction es; intros H; simpl; auto. rewrite fstep_applied; auto. Qed.

Lemma src_changes_applied es img : fallbackApplied img = true -> src_changes es img = 0%nat.
Proof.
  induction es as [|e es IH]; intros H; simpl; auto.
  rewrite fstep_applied, jstr_eqb_refl by exact H. simpl. auto.
Qed.

(** An error event with at least one listener applies the fallback
    drawn by the first listener; the others find the flag set. *)
Lemma dispatch_error_spec rnd img :
  dispatch_error rnd img =
  if fallbackApplied img then img
  else match listeners img with
       | O => img
       | S _ => on_error (rnd 0%nat) img
       end.
Proof.
  unfold dispatch_error. destruct (fallbackApplied img) eqn:Ha.
  - apply fold_on_error_applied; exact Ha.
  - destruct (listeners img) as [|n] eqn:Hl; [reflexivity|].
    simpl.
    apply fold_on_error_applied. unfold on_error. rewrite Ha. reflexivity.
Qed.

(** Before the fallback an event either keeps the flag unset and the
    [src], or sets the flag. *)
Lemma fstep_not_applied e img :
  fallbackApplied img = false ->
  (fallbackApplied (fstep e img) = false /\ src (fstep e img) = src img)
  \/ fallbackApplied (fstep e img) = true.
Proof.
  intros H. destruct e as [|rnd]; simpl.
  - unfold fallbackFor. rewrite H. left; auto.
  - rewrite dispatch_error_spec, H. destruct (listeners img); [left; auto|].
    right. unfold on_error. rewrite H. reflexivity.
Qed.

Lemma rounded_size_ge_100 img : 100 <= rounded_size (fallback_size img).
Proof.
  unfold rounded_size, fallback_size.
  destruct (Z.leb_spec (Z.max (Z.max (naturalWidth img) (clientWidth img)) 100) 60); [lia|].
  destruct (Z.leb_spec (Z.max (Z.max (naturalWidth img) (clientWidth img)) 100) 100); lia.
Qed.

Lemma rounded_size_cases img :
  rounded_size (fallback_size img) = 100 \/ rounded_size (fallback_size img) = 150.
Proof.
  pose proof (rounded_size_ge_100 img). unfold rounded_size in *.
  destruct (_ <=? 60); [lia|]. destruct (_ <=? 100); auto.
Qed.

Lemma fstep_widths e img :
  naturalWidth (fstep e img) = naturalWidth img /\ clientWidth (fstep e img) = clientWidth img.
Proof.
  destruct e as [|rnd]; simpl.
  - unfold fallbackFor. destruct (fallbackApplied img); auto.
  - rewrite dispatch_error_spec. destruct (fallbackApplied img), (listeners img); auto.
    unfold on_error. destruct (fallbackApplied img); auto.
Qed.

Lemma fallback_size_fstep e img : fallback_size (fstep e img) = fallback_size img.
Proof. unfold fallback_size. destruct (fstep_widths e img) as [-> ->]. reflexivity. Qed.

(** The event that sets the flag writes the fallback URL. *)
Lemma fstep_sets_fallback e img :
  fallbackApplied img = false -> fallbackApplied (fstep e img) = true ->
  exists r, src (fstep e img) = avatar_url (rounded_size (fallback_size img)) r.
Proof.
  intros H0 H1. destruct e as [|rnd]; simpl in *.
  - unfold fallbackFor in H1. rewrite H0 in H1. discriminate.
  - rewrite dispatch_error_spec, H0 in *. destruct (listeners img); [congruence|].
    unfold on_error. rewrite H0. simpl. eexists; reflexivity.
Qed.

(** Every render before the first error adds one listener. *)
Lemma frun_setups n img :
  fallbackApplied img = false ->
  frun (repeat EvSetup n) img =
  mkImg false (n + listeners img) (src img) (naturalWidth img) (clientWidth img).
Proof.
  revert img; induction n as [|n IH]; intros img H; simpl.
  - destruct img; simpl in *; subst; reflexivity.
  - unfold fallbackFor. rewrite H. rewrite IH by reflexivity. simpl. f_equal. lia.
Qed.

(** C31: however many times [setupImageFallbacks] has added an [error]
    listener, an image's [src] changes at most once over any sequence
    of renders and error events; until then the flag is unset and the
    [src] the original one, and afterwards the [src] is the avatar URL
    for the size 100 or 150 (the 60 branch is unreachable). *)
Theorem fallback_applied_at_most_once es img :
  (src_changes es img <= 1)%nat /\
  (fallbackApplied img = false ->
   (fallbackApplied (frun es img) = false /\ src (frun es img) = src img)
   \/ (fallbackApplied (frun es img) = true /\
       exists r, src (frun es img) = avatar_url (rounded_size (fallback_size img)) r /\
                 (rounded_size (fallback_size img) = 100 \/ rounded_size (fallback_size img) = 150))).
Proof.
  revert img; induction es as [|e es IH]; intros img; simpl; [split; auto|].
  destruct (fallbackApplied img) eqn:Ha.
  - rewrite (fstep_applied e img Ha), src_changes_applied, jstr_eqb_refl by exact Ha.
    split; [lia|discriminate].
  - destruct (fstep_not_applied e img Ha) as [[Hf Hs]|Hf].
    + destruct (IH (fstep e img)) as [Hc Hr]. rewrite Hs, jstr_eqb_refl.
      split; [exact Hc|intros _]. rewrite fallback_size_fstep, Hs in Hr. exact (Hr Hf).
    + rewrite src_changes_applied by exact Hf. split; [destruct (jstr_eqb _ _); lia|intros _].
      right. rewrite frun_applied by exact Hf. split; [exact Hf|].
      destruct (fstep_sets_fallback e img Ha Hf) as [r Hr]. exists r.
      split; [exact Hr|apply rounded_size_cases].
Qed.

End Fallback.
