(* ===== verification/Tilt.v ===== *)
(** [enableTiltEffects] (src/script.js lines 473-522).  Each call walks
    the tilt elements and gives each one a fresh closure (the variables
    [targetRX], [targetRY], [currentRX], [currentRY], [rafId]) with three
    listeners sharing it ([mousemove], [mouseenter] run [applyTilt],
    [mouseleave] runs [resetTilt]) and the frame callback [animate].
    Numbers are exact rationals [Q]: every value is a few degrees, where
    the double rounding of a step is far below the [0.01] threshold, so
    the loop behaves as in [Q].  [rafId] is kept as a [bool]: ids
    returned by [requestAnimationFrame] are positive, so [!rafId] holds
    exactly when it is [null].

    Module [Tilt] holds the closure ([Closure], [applyTilt], [resetTilt],
    [animate]), the loop run by itself ([settle]) and, for one element,
    the closures stacked by repeated calls, the browser's frame queue and
    the [style.transform] the callbacks write ([Elem], [estep]). *)

From Stdlib Require Import List Bool ZArith QArith Qabs Lqa Lia Permutation.
From S2P Require Import Prelude.
Import ListNotations.

Module Tilt.

Open Scope Q_scope.

Definition maxTiltDeg : Q := 10.
Definition inertia : Q := 12 # 100.
Definition threshold : Q := 1 # 100.
Definition half : Q := 1 # 2.

(** [x > y] on numbers. *)
Definition Qgtb (x y : Q) : bool := negb (Qle_bool x y).

Record Closure := mkClosure {
  targetRX : Q; targetRY : Q;
  currentRX : Q; currentRY : Q;
  rafId : bool                       (** [rafId !== null] *)
}.

(** [let targetRX = 0, ...; let rafId = null]. *)
Definition closure0 : Closure := mkClosure 0 0 0 0 false.

(** [el.getBoundingClientRect()] *)
Record Rect := mkRect { left : Q; top : Q; width : Q; height : Q }.

(** Set the targets, then [if (!rafId) rafId = requestAnimationFrame(animate)];
    the [bool] says whether a frame was requested. *)
Definition retarget (tx ty : Q) (c : Closure) : Closure * bool :=
  if rafId c then (mkClosure tx ty (currentRX c) (currentRY c) true, false)
  else (mkClosure tx ty (currentRX c) (currentRY c) true, true).

(** [applyTilt(e)]; a box of width or height 0 makes [relX] or [relY]
    infinite or NaN, which [Q] does not have: [None]. *)
Definition applyTilt (r : Rect) (clientX clientY : Q) (c : Closure) : option (Closure * bool) :=
  if Qeq_bool (width r) 0 || Qeq_bool (height r) 0 then None
  else
    let relX := (clientX - left r) / width r in
    let relY := (clientY - top r) / height r in
    Some (retarget ((half - relY) * maxTiltDeg) ((relX - half) * maxTiltDeg) c).

Definition resetTilt (c : Closure) : Closure * bool := retarget 0 0 c.

(** [animate()]: one easing step, the transform written, and whether a
    next frame is requested ([rafId] set again) or not ([rafId = null]). *)
Definition animate (c : Closure) : Closure * (Q * Q) :=
  let rx := currentRX c + (targetRX c - currentRX c) * inertia in
  let ry := currentRY c + (targetRY c - currentRY c) * inertia in
  let again := Qgtb (Qabs (rx - targetRX c)) threshold || Qgtb (Qabs (ry - targetRY c)) threshold in
  (mkClosure (targetRX c) (targetRY c) rx ry again, (rx, ry)).

(** The loop of one closure left alone: frames run while [rafId] is
    set; [None] when the fuel runs out first. *)
Fixpoint settle (fuel : nat) (c : Closure) : option Closure :=
  if rafId c then
    match fuel with
    | O => None
    | S f => settle f (fst (animate c))
    end
  else Some c.

Definition devX (c : Closure) : Q := currentRX c - targetRX c.
Definition devY (c : Closure) : Q := currentRY c - targetRY c.

(** [q ^ n] for a natural exponent. *)
Fixpoint qpow (q : Q) (n : nat) : Q :=
  match n with O => 1 | S n' => q * qpow q n' end.

(** ** One element *)

(** The closures of one element, in the order the calls of
    [enableTiltEffects] created them (listeners added with
    [addEventListener] are never removed: [el.onmousemove = null] only
    clears the [on...] property), the frame callbacks requested for the
    next frame (by closure index, in request order) and the last
    [el.style.transform] written. *)
Record Elem := mkElem {
  closures : list Closure;
  queue : list nat;
  transform : option (Q * Q)
}.

Definition elem0 : Elem := mkElem [] [] None.

Definition box_ok (r : Rect) : bool := negb (Qeq_bool (width r) 0 || Qeq_bool (height r) 0).

(** [targetRX], [targetRY] computed by [applyTilt] from the event. *)
Definition tilt_targets (r : Rect) (clientX clientY : Q) : Q * Q :=
  let relX := (clientX - left r) / width r in
  let relY := (clientY - top r) / height r in
  ((half - relY) * maxTiltDeg, (relX - half) * maxTiltDeg).

(** The listener of closure [i] handles the event. *)
Definition run_handler (h : Closure -> Closure * bool) (s : Elem) (i : nat) : Elem :=
  let (c', req) := h (nth i (closures s) closure0) in
  mkElem (set_nth i c' (closures s)) (if req then queue s ++ [i] else queue s) (transform s).

(** An event reaches the listeners in registration order. *)
Definition dispatch (h : Closure -> Closure * bool) (s : Elem) : Elem :=
  fold_left (run_handler h) (seq 0 (length (closures s))) s.

(** The callback of closure [i] runs in a frame. *)
Definition run_frame_cb (s : Elem) (i : nat) : Elem :=
  let (c', tr) := animate (nth i (closures s) closure0) in
  mkElem (set_nth i c' (closures s)) (if rafId c' then queue s ++ [i] else queue s) (Some tr).

(** A frame runs the callbacks requested before it, in request order;
    those they request go to the next frame. *)
Definition frame (s : Elem) : Elem :=
  fold_left run_frame_cb (queue s) (mkElem (closures s) [] (transform s)).

Inductive TEvent :=
| EvEnable                          (** a call of [enableTiltEffects] *)
| EvPointer (r : Rect) (x y : Q)    (** [mousemove] or [mouseenter] *)
| EvLeave                           (** [mouseleave] *)
| EvFrame.                          (** an animation frame *)

Definition estep (e : TEvent) (s : Elem) : option Elem :=
  match e with
  | EvEnable => Some (mkElem (closures s ++ [closure0]) (queue s) (transform s))
  | EvPointer r x y =>
      if box_ok r then
        let t := tilt_targets r x y in Some (dispatch (retarget (fst t) (snd t)) s)
      else None
  | EvLeave => Some (dispatch resetTilt s)
  | EvFrame => Some (frame s)
  end.

Fixpoint erun (es : list TEvent) (s : Elem) : option Elem :=
  match es with
  | [] => Some s
  | e :: es' => match estep e s with Some s' => erun es' s' | None => None end
  end.

(** One pending frame callback per closure whose [rafId] is set, and
    none for the others. *)
Definition queue_ok (s : Elem) : Prop :=
  NoDup (queue s) /\ (forall i, In i (queue s) -> (i < length (closures s))%nat) /\
  forall i, (i < length (closures s))%nat ->
    (rafId (nth i (closures s) closure0) = true <-> In i (queue s)).

(** ** Closure lemmas *)

Lemma Qgtb_false x y : Qgtb x y = false -> x <= y.
Proof. unfold Qgtb. rewrite negb_false_iff. apply Qle_bool_iff. Qed.

Lemma animate_devX c : devX (fst (animate c)) == (88 # 100) * devX c.
Proof. unfold devX, animate, inertia. simpl. ring. Qed.

Lemma animate_devY c : devY (fst (animate c)) == (88 # 100) * devY c.
Proof. unfold devY, animate, inertia. simpl. ring. Qed.

Lemma animate_targets c :
  targetRX (fst (animate c)) = targetRX c /\ targetRY (fst (animate c)) = targetRY c.
Proof. split; reflexivity. Qed.

(** The loop stops exactly when both deviations are within [0.01]. *)
Lemma animate_stops c :
  rafId (fst (animate c)) = false ->
  Qabs (devX (fst (animate c))) <= threshold /\ Qabs (devY (fst (animate c))) <= threshold.
Proof.
  unfold animate; cbn [fst rafId]. intros H. apply orb_false_iff in H as [H1 H2].
  unfold devX, devY; cbn [currentRX currentRY targetRX targetRY].
  split; apply Qgtb_false; assumption.
Qed.

Lemma qpow_pos q n : 0 < q -> 0 < qpow q n.
Proof.
  intros Hq. induction n as [|n IH]; simpl; [reflexivity|].
  apply Qmult_lt_0_compat; assumption.
Qed.

(** One frame shrinks a deviation bounded by [(100/88)^(n+1) / 100] to
    one bounded by [(100/88)^n / 100]. *)
Lemma shrink_bound d n :
  Qabs d <= qpow (100 # 88) (S n) * threshold ->
  Qabs ((88 # 100) * d) <= qpow (100 # 88) n * threshold.
Proof.
  intros H. rewrite Qabs_Qmult. cbn [qpow] in H. unfold threshold in *.
  change (Qabs (88 # 100)) with (88 # 100).
  set (X := qpow (100 # 88) n) in *. lra.
Qed.

Lemma shrink_base d : Qabs d <= threshold -> Qabs ((88 # 100) * d) <= threshold.
Proof.
  intros H. rewrite Qabs_Qmult. change (Qabs (88 # 100)) with (88 # 100).
  unfold threshold in *. lra.
Qed.

Lemma Qgtb_false_iff x y : Qgtb x y = false <-> x <= y.
Proof. unfold Qgtb. rewrite negb_false_iff. apply Qle_bool_iff. Qed.

Lemma rafId_animate c :
  rafId (fst (animate c)) =
  Qgtb (Qabs (devX (fst (animate c)))) threshold || Qgtb (Qabs (devY (fst (animate c)))) threshold.
Proof. reflexivity. Qed.

Lemma settle_stopped n c : rafId c = false -> settle n c = Some c.
Proof. intros H. destruct n; simpl; rewrite H; reflexivity. Qed.

Lemma settle_running n c : rafId c = true -> settle (S n) c = settle n (fst (animate c)).
Proof. intros H. simpl. rewrite H. reflexivity. Qed.

Lemma abs_devX_animate c : Qabs (devX (fst (animate c))) == Qabs ((88 # 100) * devX c).
Proof. rewrite animate_devX. reflexivity. Qed.

Lemma abs_devY_animate c : Qabs (devY (fst (animate c))) == Qabs ((88 # 100) * devY c).
Proof. rewrite animate_devY. reflexivity. Qed.

(** C27: termination of the [requestAnimationFrame] loop: a closure
    whose loop is running with both deviations at most
    [(100/88)^n * 0.01] degrees stops within [n + 1] frames, at its
    targets to within [0.01] degrees on both axes. *)
Theorem animate_loop_terminates n c :
  rafId c = true ->
  Qabs (devX c) <= qpow (100 # 88) n * threshold ->
  Qabs (devY c) <= qpow (100 # 88) n * threshold ->
  exists c', settle (S n) c = Some c' /\ rafId c' = false /\
    targetRX c' = targetRX c /\ targetRY c' = targetRY c /\
    Qabs (devX c') <= threshold /\ Qabs (devY c') <= threshold.
Proof.
  revert c; induction n as [|n IH]; intros c Hr Hx Hy;
    rewrite (settle_running _ _ Hr); set (c1 := fst (animate c)).
  - assert (Hs : rafId c1 = false).
    { unfold c1. rewrite rafId_animate. cbn [qpow] in Hx, Hy. rewrite Qmult_1_l in Hx, Hy.
      apply orb_false_iff; split; apply Qgtb_false_iff;
        [rewrite abs_devX_animate|rewrite abs_devY_animate]; apply shrink_base; assumption. }
    exists c1. rewrite settle_stopped by exact Hs.
    destruct (animate_stops c Hs). repeat split; auto.
  - destruct (rafId c1) eqn:Hs.
    + destruct (IH c1 Hs) as (c' & E & R & TX & TY & BX & BY);
        [unfold c1; rewrite abs_devX_animate; apply shrink_bound; exact Hx
        |unfold c1; rewrite abs_devY_animate; apply shrink_bound; exact Hy|].
      exists c'. repeat split; auto.
    + exists c1. rewrite settle_stopped by exact Hs.
      destruct (animate_stops c Hs). repeat split; auto.
Qed.

(** ** Element lemmas *)

Lemma retarget_rafId tx ty c : rafId (fst (retarget tx ty c)) = true.
Proof. unfold retarget. destruct (rafId c); reflexivity. Qed.

Lemma retarget_req tx ty c : snd (retarget tx ty c) = negb (rafId c).
Proof. unfold retarget. destruct (rafId c); reflexivity. Qed.

Section Handler.
Variable h : Closure -> Closure * bool.
(** What [applyTilt] and [resetTilt] share: the closure ends with
    [rafId] set, and a frame is requested exactly when it was not. *)
Hypothesis h_rafId : forall c, rafId (fst (h c)) = true.
Hypothesis h_req : forall c, snd (h c) = negb (rafId c).

Lemma run_handler_ok s i :
  queue_ok s -> (i < length (closures s))%nat -> queue_ok (run_handler h s i).
Proof.
  intros (Hnd & Hlt & Hiff) Hi. unfold run_handler.
  pose proof (h_rafId (nth i (closures s) closure0)) as Hr.
  pose proof (h_req (nth i (closures s) closure0)) as Hq.
  destruct (h (nth i (closures s) closure0)) as [c' req]; simpl in *.
  repeat split; cbn [closures queue] in *; rewrite ?length_set_nth in *.
  - destruct req; auto. apply NoDup_app; auto using NoDup_cons, NoDup_nil.
    intros x Hx [Hxi|[]]. subst x.
    destruct (rafId (nth i (closures s) closure0)) eqn:E; [discriminate Hq|].
    apply (Hiff i Hi) in Hx. congruence.
  - intros j Hj. destruct req; auto. apply in_app_or in Hj as [Hj|[<-|[]]]; auto.
  - intros Hj. rewrite nth_set_nth in Hj by exact Hi.
    destruct (Nat.eqb_spec i0 i) as [->|Hne].
    + destruct req; [apply in_or_app; right; left; reflexivity|].
      apply Hiff; auto. destruct (rafId (nth i (closures s) closure0)); [reflexivity|discriminate].
    + destruct req; [apply in_or_app; left|]; apply Hiff; auto.
  - intros Hj. rewrite nth_set_nth by exact Hi.
    destruct (Nat.eqb_spec i0 i) as [->|Hne]; [exact Hr|].
    apply Hiff; auto. destruct req; auto.
    apply in_app_or in Hj as [Hj|[E|[]]]; [exact Hj|congruence].
Qed.

Lemma dispatch_ok s : queue_ok s -> queue_ok (dispatch h s).
Proof.
  unfold dispatch. intros H.
  assert (Hlen : forall ks s', (forall k, In k ks -> k < length (closures s'))%nat ->
            queue_ok s' -> queue_ok (fold_left (run_handler h) ks s')).
  { induction ks as [|k ks IH]; intros s' Hks Hs'; simpl; auto.
    apply IH; [|apply run_handler_ok; auto with datatypes].
    intros j Hj. unfold run_handler. destruct (h _); simpl. rewrite length_set_nth.
    auto with datatypes. }
  apply Hlen; auto. intros k Hk. apply in_seq in Hk. lia.
Qed.
End Handler.

(** During a frame: the callbacks already requested for the next frame
    and those of this frame still to run. *)
Definition frame_inv (s : Elem) (rem : list nat) : Prop :=
  NoDup (queue s ++ rem) /\ (forall i, In i (queue s ++ rem) -> (i < length (closures s))%nat) /\
  forall i, (i < length (closures s))%nat ->
    (rafId (nth i (closures s) closure0) = true <-> In i (queue s ++ rem)).

Lemma in_app_cons_neq (l r : list nat) i j : j <> i -> In j (l ++ i :: r) <-> In j (l ++ r).
Proof. intros H. rewrite !in_app_iff. simpl. intuition congruence. Qed.

Lemma run_frame_cb_inv s i rem : frame_inv s (i :: rem) -> frame_inv (run_frame_cb s i) rem.
Proof.
  intros (Hnd & Hlt & Hiff). unfold run_frame_cb.
  assert (Hi : (i < length (closures s))%nat) by (apply Hlt; auto with datatypes).
  destruct (animate (nth i (closures s) closure0)) as [c' tr].
  unfold frame_inv; cbn [closures queue]. destruct (rafId c') eqn:Hr.
  - rewrite <- app_assoc. cbn [app]. repeat split; rewrite ?length_set_nth in *; auto.
    + intros Hj. rewrite nth_set_nth in Hj by exact Hi.
      destruct (Nat.eqb_spec i0 i) as [->|Hne]; [auto with datatypes|apply Hiff; auto].
    + intros Hj. rewrite nth_set_nth by exact Hi.
      destruct (Nat.eqb_spec i0 i) as [->|Hne]; [exact Hr|apply Hiff; auto].
  - repeat split; rewrite ?length_set_nth in *.
    + eapply NoDup_remove_1; eauto.
    + intros j Hj. apply Hlt. destruct (Nat.eq_dec j i) as [->|Hne]; [auto with datatypes|].
      apply (proj2 (in_app_cons_neq (queue s) rem i j Hne)); auto.
    + intros Hj. rewrite nth_set_nth in Hj by exact Hi.
      destruct (Nat.eqb_spec i0 i) as [->|Hne]; [congruence|].
      apply (proj1 (in_app_cons_neq (queue s) rem i i0 Hne)), Hiff; auto.
    + intros Hj. rewrite nth_set_nth by exact Hi.
      destruct (Nat.eqb_spec i0 i) as [->|Hne].
      * exfalso. eapply NoDup_remove_2; eauto.
      * apply Hiff; auto. apply (proj2 (in_app_cons_neq (queue s) rem i i0 Hne)); auto.
Qed.

Lemma frame_ok s : queue_ok s -> queue_ok (frame s).
Proof.
  unfold frame. intros H.
  assert (Hgen : forall rem s', frame_inv s' rem -> queue_ok (fold_left run_frame_cb rem s')).
  { induction rem as [|i rem IH]; intros s' Hs; simpl.
    - unfold frame_inv, queue_ok in *. rewrite app_nil_r in Hs. exact Hs.
    - apply IH, run_frame_cb_inv, Hs. }
  apply Hgen. exact H.
Qed.

Lemma enable_ok s : queue_ok s -> queue_ok (mkElem (closures s ++ [closure0]) (queue s) (transform s)).
Proof.
  intros (Hnd & Hlt & Hiff). unfold queue_ok; cbn [closures queue]. rewrite length_app. simpl.
  repeat split; auto.
  - intros i Hi. specialize (Hlt i Hi). lia.
  - intros Hr. destruct (Nat.lt_ge_cases i (length (closures s))) as [Hl|Hl].
    + rewrite app_nth1 in Hr by exact Hl. apply Hiff; auto.
    + rewrite app_nth2 in Hr by exact Hl. replace (i - length (closures s))%nat with 0%nat in Hr by lia.
      discriminate.
  - intros Hq. specialize (Hlt i Hq). rewrite app_nth1 by exact Hlt. apply Hiff; auto.
Qed.

Lemma estep_ok e s s' : queue_ok s -> estep e s = Some s' -> queue_ok s'.
Proof.
  intros H. destruct e as [| r x y | |]; simpl.
  - intros [= <-]. apply enable_ok, H.
  - destruct (box_ok r); [intros [= <-]|discriminate].
    apply dispatch_ok; auto using retarget_rafId, retarget_req.
  - intros [= <-]. apply dispatch_ok; unfold resetTilt; auto using retarget_rafId, retarget_req.
  - intros [= <-]. apply frame_ok, H.
Qed.

Lemma erun_ok es s s' : queue_ok s -> erun es s = Some s' -> queue_ok s'.
Proof.
  revert s; induction es as [|e es IH]; intros s H; simpl; [congruence|].
  destruct (estep e s) as [s1|] eqn:E; [|discriminate].
  apply IH. eapply estep_ok; eauto.
Qed.

Lemma elem0_ok : queue_ok elem0.
Proof.
  unfold queue_ok, elem0; cbn [queue closures length]. split; [constructor|].
  split; [intros i []|intros i Hi; lia].
Qed.

(** ** Listeners stacked by repeated calls *)

Lemma erun_enables k s :
  erun (repeat EvEnable k) s = Some (mkElem (closures s ++ repeat closure0 k) (queue s) (transform s)).
Proof.
  revert s; induction k as [|k IH]; intros s; simpl.
  - rewrite app_nil_r. destruct s; reflexivity.
  - rewrite IH. simpl. rewrite <- app_assoc. reflexivity.
Qed.

Lemma erun_app es1 es2 s :
  erun (es1 ++ es2) s = match erun es1 s with Some s' => erun es2 s' | None => None end.
Proof.
  revert s; induction es1 as [|e es IH]; intros s; simpl; auto.
  destruct (estep e s); auto.
Qed.

(** A pointer event schedules every idle closure, in registration order. *)
Lemma dispatch_idle tx ty ks s :
  NoDup ks -> (forall k, In k ks -> (k < length (closures s))%nat /\ rafId (nth k (closures s) closure0) = false) ->
  queue (fold_left (run_handler (retarget tx ty)) ks s) = queue s ++ ks /\
  length (closures (fold_left (run_handler (retarget tx ty)) ks s)) = length (closures s).
Proof.
  revert s; induction ks as [|k ks IH]; intros s Hnd Hk; simpl; [rewrite app_nil_r; auto|].
  inversion Hnd as [|? ? Hnin Hnd']; subst.
  destruct (Hk k (or_introl eq_refl)) as [Hlt Hr].
  set (c1 := mkClosure tx ty (currentRX (nth k (closures s) closure0))
                 (currentRY (nth k (closures s) closure0)) true).
  assert (E : run_handler (retarget tx ty) s k = mkElem (set_nth k c1 (closures s)) (queue s ++ [k]) (transform s))
    by (unfold run_handler, retarget; rewrite Hr; reflexivity).
  rewrite E. destruct (IH (mkElem (set_nth k c1 (closures s)) (queue s ++ [k]) (transform s))) as [Hq Hl]; auto.
  - intros j Hj. cbn [closures]. rewrite length_set_nth, nth_set_nth by exact Hlt.
    destruct (Nat.eqb_spec j k) as [->|]; [contradiction|]. auto with datatypes.
  - rewrite Hq, Hl. cbn [queue closures]. rewrite length_set_nth, <- app_assoc. auto.
Qed.

Lemma nth_repeat_app (l : list Closure) k j :
  (length l <= j < length l + k)%nat -> nth j (l ++ repeat closure0 k) closure0 = closure0.
Proof. intros H. rewrite app_nth2 by lia. apply nth_repeat. Qed.

(** C28: every element state reachable by calls of [enableTiltEffects],
    pointer events and frames has, for each of its closures, one
    pending frame callback if its [rafId] is set and none otherwise:
    the [if (!rafId)] guards never start a second loop for a closure. *)
Theorem tilt_pending_frames es s :
  erun es elem0 = Some s -> queue_ok s.
Proof. intros H. exact (erun_ok es elem0 s elem0_ok H). Qed.

(** C29: listeners accumulate: on an element [enableTiltEffects] has
    been applied to [k] times (at start-up, after every [renderPosts]
    and every [setActiveNav]), one mouse move schedules [k] separate
    animation loops, one per stacked closure. *)
Theorem tilt_listeners_accumulate k r x y :
  box_ok r = true ->
  exists s, erun (repeat EvEnable k ++ [EvPointer r x y]) elem0 = Some s /\
            length (closures s) = k /\ queue s = seq 0 k.
Proof.
  intros Hb. rewrite erun_app, erun_enables. cbn [erun estep closures queue transform app elem0].
  rewrite Hb. destruct (tilt_targets r x y) as [tx ty]. cbn [fst snd].
  eexists; split; [reflexivity|].
  unfold dispatch. cbn [closures queue]. rewrite repeat_length.
  destruct (dispatch_idle tx ty (seq 0 k) (mkElem (repeat closure0 k) [] None)) as [Hq Hl].
  - apply seq_NoDup.
  - intros j Hj. apply in_seq in Hj. cbn [closures]. rewrite repeat_length.
    split; [lia|]. rewrite nth_repeat. reflexivity.
  - rewrite Hq, Hl. cbn [closures queue]. rewrite repeat_length. auto.
Qed.

Definition sample_rect : Rect := mkRect 0 0 200 100.

Lemma animate_loop_terminates_witness :
  exists c', settle 50 (mkClosure 5 (-5) 0 0 true) = Some c' /\ rafId c' = false /\
    targetRX c' = 5 /\ targetRY c' = -5 /\
    Qabs (devX c') <= threshold /\ Qabs (devY c') <= threshold.
Proof.
  apply (animate_loop_terminates 49 (mkClosure 5 (-5) 0 0 true)); [reflexivity| |];
    apply Qle_bool_iff; vm_compute; reflexivity.
Defined.

Lemma tilt_pending_frames_witness :
  exists s, erun (EvEnable :: EvEnable :: EvPointer sample_rect 150 20 :: EvFrame :: nil) elem0 = Some s /\
            queue_ok s.
Proof.
  eexists; split; [reflexivity|].
  apply (tilt_pending_frames (EvEnable :: EvEnable :: EvPointer sample_rect 150 20 :: EvFrame :: nil)).
  reflexivity.
Defined.

Lemma tilt_listeners_accumulate_witness :
  exists s, erun (repeat EvEnable 3 ++ EvPointer sample_rect 150 20 :: nil) elem0 = Some s /\
            length (closures s) = 3%nat /\ queue s = seq 0 3.
Proof. apply tilt_listeners_accumulate. reflexivity. Defined.

End Tilt.
