(* ===== verification/Render.v ===== *)
(** The feed renderer: [renderPosts] (src/script.js lines 393-417) and
    [createPostElement] (lines 419-454).  The DOM the two methods build
    is modelled by what it shows: the empty-state block, or one card per
    post carrying every interpolated value of the card template (the
    static markup around them is the same for every card).  Properties:
    one card per post in order, the counters and active classes shown
    are the post's own, and the text goes through [formatPostContent]. *)

From Stdlib Require Import String.
From Stdlib Require Import List Bool ZArith Lia.
From S2P Require Import Prelude JsString Posts Format.
Import ListNotations.
Import PostStore TimeFormat ContentFormat.
Local Open Scope Z_scope.

Module Render.

(** The interpolations of the card template (lines 422-452). *)
Record PostCard := mkCard {
  card_avatar : jstr;          (* img src: post.user.avatar *)
  card_alt : jstr;             (* img alt and h4: post.user.name *)
  card_username : jstr;        (* p: post.user.username *)
  card_time : jstr;            (* span.post-time: formatTime *)
  card_text : jstr;            (* p.post-text innerHTML: formatPostContent *)
  card_image : option jstr;    (* img.post-image, only when post.image *)
  card_liked : bool;           (* class 'liked' on the like button *)
  card_likes : jstr;           (* ${post.likes} *)
  card_retweeted : bool;       (* class 'retweeted' *)
  card_retweets : jstr;        (* ${post.retweets} *)
  card_comments : jstr;        (* ${post.comments} *)
  card_post_id : jstr          (* ${post.id} in the four onclick handlers *)
}.

(** What [#postsFeed] holds after a render: the "No posts found" block
    (lines 397-406) or the cards in order (lines 408-411). *)
Inductive Feed := NoPosts | Cards (cards : list PostCard).

Section WithLocale.
Variable toLocaleDateString : Z -> jstr.

(** Lines 419-454, at render time [now].  An [image] of [null] is falsy
    and renders nothing; any string present is rendered. *)
Definition createPostElement (now : Z) (post : Post) : PostCard :=
  mkCard (avatar (user post)) (name (user post)) (username (user post))
    (formatTime toLocaleDateString now (timestamp post))
    (formatPostContent (content post))
    (match image post with Some (_ :: _) => image post | _ => None end)
    (liked post) (int_to_dec (likes post))
    (retweeted post) (int_to_dec (retweets post))
    (int_to_dec (comments post)) (int_to_dec (id post)).

(** Lines 393-417: the feed is cleared, then either the empty state or
    every card is appended.  The fallback and tilt re-binding of lines
    413-416 write no feed content. *)
Definition renderPosts (now : Z) (postsToRender : list Post) : Feed :=
  match postsToRender with
  | [] => NoPosts
  | _ => Cards (map (createPostElement now) postsToRender)
  end.

(** Two renders are equal only for lists of the same length. *)
Lemma renderPosts_length now now' l l' :
  renderPosts now l = renderPosts now' l' -> length l = length l'.
Proof.
  destruct l as [|x l], l' as [|y l']; simpl; try discriminate; auto.
  intros E. apply (f_equal (fun f => match f with NoPosts => O | Cards cs => length cs end)) in E.
  simpl in E. rewrite !length_map in E. lia.
Qed.

Lemma renderPosts_cards now posts :
  posts <> [] -> renderPosts now posts = Cards (map (createPostElement now) posts).
Proof. destruct posts; [congruence|reflexivity]. Qed.

(** C20: rendering shows the "No posts found" block exactly for an empty
    list, and otherwise one card per post, in list order, each card
    showing that post's counters as decimal text, its active classes
    from its own flags and its text through [formatPostContent]. *)
Theorem renderPosts_spec now posts :
  (renderPosts now posts = NoPosts <-> posts = []) /\
  (posts <> [] -> exists cards, renderPosts now posts = Cards cards /\
     length cards = length posts /\
     forall i p, nth_error posts i = Some p ->
       exists c, nth_error cards i = Some c /\
         card_likes c = int_to_dec (likes p) /\ card_retweets c = int_to_dec (retweets p) /\
         card_comments c = int_to_dec (comments p) /\
         card_liked c = liked p /\ card_retweeted c = retweeted p /\
         card_text c = formatPostContent (content p) /\ card_post_id c = int_to_dec (id p)).
Proof.
  split.
  - destruct posts; simpl; split; congruence.
  - intros Hne. exists (map (createPostElement now) posts).
    rewrite renderPosts_cards by auto. split; [reflexivity|]. split; [apply length_map|].
    intros i p Hp. exists (createPostElement now p).
    rewrite nth_error_map, Hp. repeat split.
Qed.

End WithLocale.

Lemma renderPosts_spec_witness :
  exists cards, renderPosts (fun _ => []) 0 (loadSampleData 0) = Cards cards /\
     length cards = length (loadSampleData 0) /\
     forall i p, nth_error (loadSampleData 0) i = Some p ->
       exists c, nth_error cards i = Some c /\
         card_likes c = int_to_dec (likes p) /\ card_retweets c = int_to_dec (retweets p) /\
         card_comments c = int_to_dec (comments p) /\
         card_liked c = liked p /\ card_retweeted c = retweeted p /\
         card_text c = formatPostContent (content p) /\ card_post_id c = int_to_dec (id p).
Proof. apply (proj2 (renderPosts_spec (fun _ => []) 0 (loadSampleData 0))). discriminate. Defined.

End Render.
