(* ===== verification/App.v ===== *)
(** The interaction controller: the state of a [LinkUpApp] instance and
    the DOM it writes, and the whole event handlers [createPost]
    (src/script.js lines 129-152), [handlePostAction] (191-213),
    [sharePost] (215-227), [handleSearch] (242-251) and the constructor
    (4-28), each composed from the store, search, render and notification
    parts as the code composes them; [render] also counts the
    [enableTiltEffects] calls [renderPosts] makes.  Events are a step
    function; runs are folds of it.  Properties: each handler on every
    branch, the feed invariant over all runs, and the end-to-end
    scenario of the spec.  [Page] composes these handlers with the other
    listeners. *)

From Stdlib Require Import String.
From Stdlib Require Import List Bool ZArith Lia.
From S2P Require Import Prelude JsString Posts Search Format Render.
Import ListNotations.
Import PostStore Search ContentFormat Render.
Local Open Scope Z_scope.

Module Controller.

(** The [type] argument of [showNotification] (line 280). *)
Inductive NoteKind := Info | Success | Warning | Danger.

(** A toast [div] appended to [document.body] (lines 281-298). *)
Record Toast := mkToast { toast_msg : jstr; toast_kind : NoteKind }.

(** [this.*] fields and the DOM the post handlers write. *)
Record App := mkApp {
  posts : list Post;            (* this.posts *)
  current_user : User;          (* this.currentUser *)
  feed : Feed;                  (* #postsFeed *)
  postText : jstr;              (* #postText value *)
  toasts : list Toast;          (* notifications appended, oldest first *)
  clipboard : option jstr;      (* last navigator.clipboard.writeText *)
  shares : list (jstr * jstr * jstr); (* navigator.share calls: title, text, url *)
  tilt_binds : nat              (* calls of enableTiltEffects so far: closures
                                   stacked on each tilt element that stays in the page *)
}.

(** The browser features the handlers test. *)
Record Env := mkEnv {
  has_share : bool;             (* navigator.share is defined *)
  location_href : jstr;         (* window.location.href *)
  toLocaleDateString : Z -> jstr
}.

Definition set_posts (ps : list Post) (s : App) : App :=
  mkApp ps (current_user s) (feed s) (postText s) (toasts s) (clipboard s) (shares s) (tilt_binds s).
Definition set_feed (f : Feed) (s : App) : App :=
  mkApp (posts s) (current_user s) f (postText s) (toasts s) (clipboard s) (shares s) (tilt_binds s).
Definition bump_tilt (s : App) : App :=
  mkApp (posts s) (current_user s) (feed s) (postText s) (toasts s) (clipboard s) (shares s)
    (S (tilt_binds s)).
Definition set_postText (t : jstr) (s : App) : App :=
  mkApp (posts s) (current_user s) (feed s) t (toasts s) (clipboard s) (shares s) (tilt_binds s).

Section Handlers.
Variable env : Env.

(** [showNotification(message, type)], lines 280-298: the toast is
    appended; its removal by timers is modelled in [Notify]. *)
Definition showNotification (msg : jstr) (k : NoteKind) (s : App) : App :=
  mkApp (posts s) (current_user s) (feed s) (postText s)
    (toasts s ++ [mkToast msg k]) (clipboard s) (shares s) (tilt_binds s).

(** [renderPosts(postsToRender = this.posts)] at time [now]: the feed,
    then, for a non-empty list only (the empty state returns early),
    [setupImageFallbacks()] and [enableTiltEffects()]. *)
Definition render (now : Z) (l : list Post) (s : App) : App :=
  let s1 := set_feed (renderPosts (toLocaleDateString env) now l) s in
  match l with [] => s1 | _ :: _ => bump_tilt s1 end.

(** Lines 215-227. *)
Definition sharePost (post : Post) (s : App) : App :=
  if has_share env then
    mkApp (posts s) (current_user s) (feed s) (postText s) (toasts s) (clipboard s)
      (shares s ++ [(js "Check out this post on LinkUp", content post, location_href env)])
      (tilt_binds s)
  else
    showNotification (js "Post link copied to clipboard!") Success
      (mkApp (posts s) (current_user s) (feed s) (postText s) (toasts s)
         (Some (content post ++ js " - Shared from LinkUp")) (shares s) (tilt_binds s)).

(** Lines 129-152: publish the trimmed text, re-render the whole store,
    clear the textarea, notify.  Blank text: an early [return]. *)
Definition createPost (now : Z) (s : App) : App :=
  match publish (current_user s) now (postText s) (posts s) with
  | None => s
  | Some ps =>
      showNotification (js "Post published successfully!") Success
        (set_postText [] (render now ps (set_posts ps s)))
  end.

(** Lines 191-213: find, mutate, the per-action side effect, then
    [renderPosts()] of the whole store.  Not found: early [return]. *)
Definition handlePostAction (a : Action) (pid : Z) (now : Z) (s : App) : App :=
  match find_first (has_id pid) (posts s) with
  | None => s
  | Some post =>
      let ps := update_first (has_id pid) (apply_action a) (posts s) in
      let s1 := set_posts ps s in
      let s2 := match a with
                | Comment => showNotification (js "Comment added!") Info s1
                | Share => sharePost post s1
                | _ => s1
                end in
      render now (posts s2) s2
  end.

(** Lines 242-251 with the render of the filtered list. *)
Definition onSearchInput (query : jstr) (now : Z) (s : App) : App :=
  match Search.handleSearch query (posts s) with
  | None => s
  | Some l => render now l s
  end.

(** The constructor and the post part of [init] (lines 4-28): empty
    composer, sample data loaded at [now], full render, then
    [enableTiltEffects()] once more. *)
Definition init (now : Z) : App :=
  bump_tilt (render now (loadSampleData now)
    (mkApp (loadSampleData now) currentUser NoPosts [] [] None [] 0)).

(** Browser events reaching these handlers. *)
Inductive Event :=
| EvType (text : jstr)                       (* typing in #postText *)
| EvPublish (now : Z)                        (* #publishBtn click *)
| EvPostAction (a : Action) (pid : Z) (now : Z)  (* a card button *)
| EvSearch (query : jstr) (now : Z).         (* #searchInput input *)

Definition step (e : Event) (s : App) : App :=
  match e with
  | EvType t => set_postText t s
  | EvPublish now => createPost now s
  | EvPostAction a pid now => handlePostAction a pid now s
  | EvSearch q now => onSearchInput q now s
  end.

Definition run (evs : list Event) (s : App) : App := fold_left (fun s e => step e s) evs s.

End Handlers.

(** ** Field lemmas *)

Section Facts.
Variable env : Env.

Lemma posts_showNotification m k s : posts (showNotification m k s) = posts s.
Proof. reflexivity. Qed.
Lemma feed_showNotification m k s : feed (showNotification m k s) = feed s.
Proof. reflexivity. Qed.
Lemma posts_sharePost p s : posts (sharePost env p s) = posts s.
Proof. unfold sharePost. destruct (has_share env); reflexivity. Qed.
Lemma posts_render t l s : posts (render env t l s) = posts s.
Proof. unfold render. destruct l; reflexivity. Qed.
Lemma feed_render t l s : feed (render env t l s) = renderPosts (toLocaleDateString env) t l.
Proof. unfold render. destruct l; reflexivity. Qed.
Lemma postText_render t l s : postText (render env t l s) = postText s.
Proof. unfold render. destruct l; reflexivity. Qed.
Lemma toasts_render t l s : toasts (render env t l s) = toasts s.
Proof. unfold render. destruct l; reflexivity. Qed.
Lemma clipboard_render t l s : clipboard (render env t l s) = clipboard s.
Proof. unfold render. destruct l; reflexivity. Qed.
Lemma shares_render t l s : shares (render env t l s) = shares s.
Proof. unfold render. destruct l; reflexivity. Qed.
Lemma current_user_render t l s : current_user (render env t l s) = current_user s.
Proof. unfold render. destruct l; reflexivity. Qed.
Lemma tilt_binds_render t l s :
  tilt_binds (render env t l s) = match l with [] => tilt_binds s | _ => S (tilt_binds s) end.
Proof. unfold render. destruct l; reflexivity. Qed.

Create Rewrite HintDb app_rw.
#[local] Hint Rewrite posts_showNotification feed_showNotification posts_sharePost
  posts_render feed_render postText_render toasts_render clipboard_render shares_render
  current_user_render : app_rw.

Ltac app_simpl := autorewrite with app_rw linkup_rw in *; simpl in *.

(** The post-action side effects leave the store and feed to the render. *)
Lemma posts_action_effect a post s :
  posts (match a with
         | Comment => showNotification (js "Comment added!") Info s
         | Share => sharePost env post s
         | _ => s end) = posts s.
Proof. destruct a; app_simpl; reflexivity. Qed.

#[local] Hint Rewrite posts_action_effect : app_rw.

(** C21: a successful action re-renders the whole store, whatever the
    feed showed before: a like clicked in a search result replaces the
    results with the full feed. *)
Theorem handlePostAction_renders_full_store a pid now s post :
  find_first (has_id pid) (posts s) = Some post ->
  posts (handlePostAction env a pid now s) = update_first (has_id pid) (apply_action a) (posts s)
  /\ feed (handlePostAction env a pid now s)
     = renderPosts (toLocaleDateString env) now (update_first (has_id pid) (apply_action a) (posts s)).
Proof.
  intros H. unfold handlePostAction. rewrite H. app_simpl. split; reflexivity.
Qed.

(** C22: clicking Publish runs the store's publish on the textarea text;
    when it stores the post, the handler shows the whole new store,
    empties the textarea and appends the success toast; when it refuses
    (blank text), the whole application state is unchanged: no toast,
    the textarea keeps its text. *)
Theorem createPost_spec now s :
  (publish (current_user s) now (postText s) (posts s) = None -> createPost env now s = s) /\
  (forall ps, publish (current_user s) now (postText s) (posts s) = Some ps ->
     posts (createPost env now s) = ps /\
     feed (createPost env now s) = renderPosts (toLocaleDateString env) now ps /\
     postText (createPost env now s) = [] /\
     toasts (createPost env now s) = toasts s ++ [mkToast (js "Post published successfully!") Success]).
Proof.
  unfold createPost. split; [intros H; rewrite H; reflexivity|].
  intros ps H. rewrite H. unfold set_postText, set_posts. app_simpl. repeat split.
Qed.

(** a comment click adds one to that post's comment count and
    appends the info toast "Comment added!". *)
Theorem handlePostAction_comment pid now s post :
  find_first (has_id pid) (posts s) = Some post ->
  In (apply_action Comment post) (posts (handlePostAction env Comment pid now s)) /\
  comments (apply_action Comment post) = comments post + 1 /\
  toasts (handlePostAction env Comment pid now s) = toasts s ++ [mkToast (js "Comment added!") Info].
Proof.
  intros H. unfold handlePostAction. rewrite H. app_simpl. split; [|split; reflexivity].
  destruct (update_first_split _ (apply_action Comment) _ _ H) as (l1 & l2 & _ & -> & _).
  apply in_or_app; right; left; reflexivity.
Qed.

(** without [navigator.share], sharing writes "<text> - Shared from
    LinkUp" to the clipboard and notifies; with it, the share sheet is
    called with the post text and the page URL.  The store is unchanged. *)
Theorem handlePostAction_share pid now s post :
  find_first (has_id pid) (posts s) = Some post ->
  posts (handlePostAction env Share pid now s) = posts s /\
  (has_share env = false ->
     clipboard (handlePostAction env Share pid now s) = Some (content post ++ js " - Shared from LinkUp")
     /\ toasts (handlePostAction env Share pid now s)
        = toasts s ++ [mkToast (js "Post link copied to clipboard!") Success]) /\
  (has_share env = true ->
     shares (handlePostAction env Share pid now s)
     = shares s ++ [(js "Check out this post on LinkUp", content post, location_href env)]).
Proof.
  intros H. unfold handlePostAction. rewrite H. app_simpl.
  rewrite update_first_id by reflexivity.
  unfold sharePost. split; [destruct (has_share env); reflexivity|].
  split; intros Hs; rewrite Hs; split || reflexivity; reflexivity.
Qed.

(** ** Invariants over runs *)

(** The feed shows the render of some subsequence of the current store:
    counters and flags on screen are never stale. *)
Definition feed_current (s : App) : Prop :=
  exists t l, subseq l (posts s) /\ feed s = renderPosts (toLocaleDateString env) t l.

Lemma subseq_refl {A} (l : list A) : subseq l l.
Proof. induction l; constructor; auto. Qed.

Lemma step_feed_current e s : feed_current s -> feed_current (step env e s).
Proof.
  intros Hf. destruct e as [t|now|a pid now|q now]; simpl.
  - exact Hf.
  - unfold createPost. destruct (publish _ _ _ _); [|exact Hf].
    exists now, l. unfold set_postText, set_posts. app_simpl. split; [apply subseq_refl|reflexivity].
  - unfold handlePostAction. destruct (find_first _ _) as [p|]; [|exact Hf].
    exists now, (update_first (has_id pid) (apply_action a) (posts s)).
    app_simpl. split; [apply subseq_refl|reflexivity].
  - unfold onSearchInput, Search.handleSearch. destruct (_ <? 2); [exact Hf|].
    exists now, (search_filter q (posts s)). app_simpl. split; [apply filter_subseq|reflexivity].
Qed.

Lemma current_user_step e s : current_user (step env e s) = current_user s.
Proof.
  destruct e; simpl; try reflexivity.
  - unfold createPost. destruct (publish _ _ _ _); [|reflexivity].
    unfold set_postText, set_posts. app_simpl. reflexivity.
  - unfold handlePostAction. destruct (find_first _ _); [|reflexivity]. app_simpl.
    destruct a; simpl; try reflexivity. unfold sharePost; destruct (has_share env); reflexivity.
  - unfold onSearchInput. destruct (Search.handleSearch _ _); app_simpl; reflexivity.
Qed.

Lemma step_reachable e s :
  current_user s = currentUser -> reachable (posts s) -> reachable (posts (step env e s)).
Proof.
  intros Hu Hr. destruct e as [t|now|a pid now|q now]; simpl; auto.
  - unfold createPost. destruct (publish _ _ _ _) eqn:E; [|exact Hr].
    unfold set_postText, set_posts. app_simpl. rewrite Hu in E. eapply reach_publish; eauto.
  - unfold handlePostAction. destruct (find_first _ _) eqn:E; [|exact Hr].
    app_simpl. apply reach_action with (posts s) a pid; auto.
    unfold post_action. rewrite E. reflexivity.
  - unfold onSearchInput. destruct (Search.handleSearch _ _); app_simpl; exact Hr.
Qed.

Lemma run_preserves (P : App -> Prop) evs s :
  (forall e s, P s -> P (step env e s)) -> P s -> P (run env evs s).
Proof.
  intros Hs. revert s; induction evs as [|e evs IH]; intros s Hp; simpl; auto.
Qed.

Lemma init_feed_current t : feed_current (init env t).
Proof. exists t, (loadSampleData t). split; [apply subseq_refl|reflexivity]. Qed.

(** along every run of events from start-up, the store stays well
    formed (no negative counter, every set flag backed by a count) and
    the feed shows the render of a subsequence of the current store, so
    the counters and flags on screen are never stale. *)
Theorem run_invariants evs t :
  store_wf (posts (run env evs (init env t))) /\ feed_current (run env evs (init env t)).
Proof.
  assert (H : (current_user (run env evs (init env t)) = currentUser
               /\ reachable (posts (run env evs (init env t))))
              /\ feed_current (run env evs (init env t))).
  { apply (run_preserves (fun s => (current_user s = currentUser /\ reachable (posts s))
                                  /\ feed_current s)).
    - intros e s [[Hu Hr] Hf]. repeat split.
      + rewrite current_user_step; auto.
      + apply step_reachable; auto.
      + apply step_feed_current; auto.
    - repeat split; [apply reach_load|apply init_feed_current]. }
  destruct H as [[_ Hr] Hf]. split; auto. apply reachable_wf; auto.
Qed.

(** C23: clearing the search box does not bring the feed back: after a
    search for [q1] (two or more code units) that hides at least one
    post, a query [q2] shorter than two units changes nothing, so the
    feed keeps showing the filtered posts, which is not the render of
    the store at any time. *)
Theorem search_cleared_keeps_filtered_feed q1 q2 t1 t2 s :
  2 <= js_length q1 -> js_length q2 < 2 ->
  search_filter q1 (posts s) <> posts s ->
  let s2 := onSearchInput env q2 t2 (onSearchInput env q1 t1 s) in
  posts s2 = posts s /\
  feed s2 = renderPosts (toLocaleDateString env) t1 (search_filter q1 (posts s)) /\
  forall t, feed s2 <> renderPosts (toLocaleDateString env) t (posts s2).
Proof.
  intros H1 H2 Hf s2.
  assert (E : s2 = render env t1 (search_filter q1 (posts s)) s).
  { unfold s2, onSearchInput, Search.handleSearch.
    destruct (Z.ltb_spec (js_length q1) 2); [lia|].
    rewrite posts_render. destruct (Z.ltb_spec (js_length q2) 2); [reflexivity|lia]. }
  rewrite E. app_simpl. split; [reflexivity|split; [reflexivity|]].
  intros t Hr. apply renderPosts_length in Hr.
  pose proof (filter_length_lt _ _ Hf). unfold search_filter in Hr. lia.
Qed.

End Facts.

(** A browser without [navigator.share] and with an empty locale date. *)
Definition plain_env : Env := mkEnv false [] (fun _ => []).

(** The store of the spec's end-to-end scenario: one post "hello #India"
    with no likes. *)
Definition scenario_post : Post :=
  mkPost 1 currentUser (js "hello #India") None 0 0 0 0 false false.
Definition scenario_app : App :=
  mkApp [scenario_post] currentUser NoPosts [] [] None [] 0.

(** end to end: liking post A ("hello #India", 0 likes) makes it
    liked with 1 like, and the re-rendered card shows the active like
    class, the counter "1" and [#India] wrapped in the accent span. *)
Theorem scenario_like_render :
  let s := handlePostAction plain_env Like 1 60000 scenario_app in
  (exists p, posts s = [p] /\ liked p = true /\ likes p = 1) /\
  exists c, feed s = Cards [c] /\ card_liked c = true /\ card_likes c = js "1" /\
            card_text c = js "hello " ++ tag_open ++ js "#India" ++ tag_close.
Proof.
  simpl. split.
  - eexists; repeat split.
  - eexists; repeat split.
Qed.

(** ** Witnesses *)

Lemma search_cleared_keeps_filtered_feed_witness :
  let s := init plain_env 0 in
  2 <= js_length (js "goa") /\ js_length [] < 2 /\ search_filter (js "goa") (posts s) <> posts s /\
  posts (onSearchInput plain_env [] 0 (onSearchInput plain_env (js "goa") 0 s)) = posts s.
Proof.
  intros s. assert (H1 : 2 <= js_length (js "goa")) by (vm_compute; discriminate).
  assert (H2 : js_length [] < 2) by reflexivity.
  assert (Hf : search_filter (js "goa") (posts s) <> posts s).
  { intros E. apply (f_equal (@length _)) in E. vm_compute in E. discriminate E. }
  split; [exact H1|split; [exact H2|split; [exact Hf|]]].
  exact (proj1 (search_cleared_keeps_filtered_feed plain_env (js "goa") [] 0 0 s H1 H2 Hf)).
Defined.

Lemma handlePostAction_renders_full_store_witness :
  exists post, find_first (has_id 3) (posts (init plain_env 0)) = Some post /\
  posts (handlePostAction plain_env Like 3 5 (init plain_env 0))
    = update_first (has_id 3) (apply_action Like) (posts (init plain_env 0))
  /\ feed (handlePostAction plain_env Like 3 5 (init plain_env 0))
     = renderPosts (fun _ => []) 5 (update_first (has_id 3) (apply_action Like) (posts (init plain_env 0))).
Proof.
  eexists; split; [reflexivity|].
  exact (handlePostAction_renders_full_store plain_env Like 3 5 (init plain_env 0) _ eq_refl).
Defined.

Lemma createPost_spec_witness :
  let s := set_postText (js " hi ") (init plain_env 0) in
  exists ps, publish (current_user s) 7 (postText s) (posts s) = Some ps /\
  posts (createPost plain_env 7 s) = ps.
Proof.
  intros s. eexists; split; [reflexivity|].
  exact (proj1 (proj2 (createPost_spec plain_env 7 s) _ eq_refl)).
Defined.

Lemma handlePostAction_comment_witness :
  exists post, find_first (has_id 2) (posts (init plain_env 0)) = Some post /\
  comments (apply_action Comment post) = comments post + 1.
Proof.
  eexists; split; [reflexivity|].
  exact (proj1 (proj2 (handlePostAction_comment plain_env 2 0 (init plain_env 0) _ eq_refl))).
Defined.

Lemma handlePostAction_share_witness :
  exists post, find_first (has_id 4) (posts (init plain_env 0)) = Some post /\
  clipboard (handlePostAction plain_env Share 4 0 (init plain_env 0))
    = Some (content post ++ js " - Shared from LinkUp").
Proof.
  eexists; split; [reflexivity|].
  exact (proj1 (proj1 (proj2 (handlePostAction_share plain_env 4 0 (init plain_env 0) _ eq_refl)) eq_refl)).
Defined.

End Controller.
