(* ===== verification/Notify.v ===== *)
(** Notification toasts and their timers ([showNotification], src/script.js
    lines 280-304).  Each call appends a toast and schedules, 3000 ms
    later, a callback that starts the slide-out animation and schedules,
    300 ms after that, [notification.remove()].  The browser's timer
    queue is explicit: [tick] fires the earliest due callback (the
    oldest first among equal due times), [drain] runs the loop.
    Properties: the loop terminates (a weight on pending callbacks
    drops at every tick), every toast in the page has a pending callback
    that will remove it, so draining the queue empties the page, and a
    single toast is on screen for exactly 3300 ms. *)

From Stdlib Require Import String.
From Stdlib Require Import List Bool ZArith Lia Permutation.
From S2P Require Import Prelude JsString App.
Import ListNotations.
Import Controller.
Local Open Scope Z_scope.

Module Notify.

Inductive Phase := SlidingIn | SlidingOut.

(** A toast element: its identity (the object [notification]), text,
    kind and animation. *)
Record ToastEl := mkEl { el_id : nat; el_msg : jstr; el_kind : NoteKind; el_phase : Phase }.

(** The two arrow functions passed to [setTimeout] (lines 300-303). *)
Inductive Callback := StartSlideOut (i : nat) | RemoveEl (i : nat).

Record Timer := mkTimer { due : Z; cb : Callback }.

Record NState := mkN {
  clock : Z; body : list ToastEl; timers : list Timer; next_id : nat }.

(** [showNotification(message, type)] at time [clock]. *)
Definition showNotification (msg : jstr) (k : NoteKind) (s : NState) : NState :=
  mkN (clock s) (body s ++ [mkEl (next_id s) msg k SlidingIn])
      (timers s ++ [mkTimer (clock s + 3000) (StartSlideOut (next_id s))]) (S (next_id s)).

(** The earliest due time, and the first timer that has it. *)
Fixpoint min_due (m : Z) (l : list Timer) : Z :=
  match l with [] => m | t :: r => min_due (Z.min m (due t)) r end.

Fixpoint take_due (d : Z) (l : list Timer) : option (Timer * list Timer) :=
  match l with
  | [] => None
  | t :: r => if due t =? d then Some (t, r)
              else match take_due d r with Some (x, r') => Some (x, t :: r') | None => None end
  end.

Definition pick (l : list Timer) : option (Timer * list Timer) :=
  match l with [] => None | t :: r => take_due (min_due (due t) r) l end.

Definition set_phase (i : nat) (e : ToastEl) : ToastEl :=
  if Nat.eqb (el_id e) i then mkEl (el_id e) (el_msg e) (el_kind e) SlidingOut else e.

(** Running one callback at its due time.  [remove()] on an element no
    longer in the page does nothing. *)
Definition fire (t : Timer) (s : NState) : NState :=
  match cb t with
  | StartSlideOut i =>
      mkN (due t) (map (set_phase i) (body s))
          (timers s ++ [mkTimer (due t + 300) (RemoveEl i)]) (next_id s)
  | RemoveEl i =>
      mkN (due t) (filter (fun e => negb (Nat.eqb (el_id e) i)) (body s)) (timers s) (next_id s)
  end.

Definition tick (s : NState) : option NState :=
  match pick (timers s) with
  | None => None
  | Some (t, rest) => Some (fire t (mkN (clock s) (body s) rest (next_id s)))
  end.

Fixpoint drain (fuel : nat) (s : NState) : NState :=
  match fuel with
  | O => s
  | S f => match tick s with None => s | Some s' => drain f s' end
  end.

(** A pending slide-out still owes one more callback. *)
Definition weight (t : Timer) : nat := match cb t with StartSlideOut _ => 2 | RemoveEl _ => 1 end.
Definition total_weight (l : list Timer) : nat := fold_right (fun t n => (weight t + n)%nat) 0%nat l.

(** ** The timer loop *)

Lemma take_due_perm d l t r : take_due d l = Some (t, r) -> Permutation l (t :: r) /\ due t = d.
Proof.
  revert r; induction l as [|x l IH]; intros r; simpl; [discriminate|].
  destruct (Z.eqb_spec (due x) d) as [E|E].
  - intros [= <- <-]. split; auto.
  - destruct (take_due d l) as [[y r']|] eqn:T; [|discriminate]. intros [= <- <-].
    destruct (IH r' eq_refl) as [HP Hd]. split; auto.
    eapply perm_trans; [apply perm_skip, HP|apply perm_swap].
Qed.

Lemma take_due_found d l x : In x l -> due x = d -> exists t r, take_due d l = Some (t, r).
Proof.
  induction l as [|y l IH]; simpl; [tauto|]. intros [<-|Hx] Hd.
  - rewrite Hd, Z.eqb_refl. eauto.
  - destruct (due y =? d); [eauto|]. destruct (IH Hx Hd) as (t & r & ->). eauto.
Qed.

Lemma min_due_in m l : min_due m l = m \/ exists x, In x l /\ due x = min_due m l.
Proof.
  revert m; induction l as [|y l IH]; intros m; simpl; [auto|].
  destruct (IH (Z.min m (due y))) as [H|(x & Hx & Hd)].
  - rewrite H. destruct (Z.min_spec m (due y)) as [[_ ->]|[_ ->]]; [left|right; exists y]; auto.
  - right. exists x; auto.
Qed.

Lemma pick_some l : l <> [] -> exists t r, pick l = Some (t, r) /\ Permutation l (t :: r).
Proof.
  destruct l as [|x l]; [congruence|]. intros _. unfold pick.
  destruct (min_due_in (due x) l) as [H|(y & Hy & Hd)].
  - destruct (take_due_found (min_due (due x) l) (x :: l) x) as (t & r & E); [left; auto|auto|].
    exists t, r. split; auto. apply (take_due_perm _ _ _ _ E).
  - destruct (take_due_found (min_due (due x) l) (x :: l) y) as (t & r & E); [right; auto|auto|].
    exists t, r. split; auto. apply (take_due_perm _ _ _ _ E).
Qed.

Lemma pick_perm l t r : pick l = Some (t, r) -> Permutation l (t :: r).
Proof. destruct l; [discriminate|]. unfold pick. intros H. apply (take_due_perm _ _ _ _ H). Qed.

Lemma total_weight_perm l l' : Permutation l l' -> total_weight l = total_weight l'.
Proof. induction 1; simpl; lia. Qed.

Lemma total_weight_app l l' : total_weight (l ++ l') = (total_weight l + total_weight l')%nat.
Proof. induction l; simpl; lia. Qed.

Lemma tick_None s : tick s = None <-> timers s = [].
Proof.
  unfold tick. split.
  - destruct (timers s) as [|x l] eqn:E; auto. intros H.
    destruct (pick_some (x :: l)) as (t & r & P & _); [discriminate|]. rewrite P in H. discriminate.
  - intros ->. reflexivity.
Qed.

(** Every tick lowers the weight of the pending callbacks. *)
Lemma tick_weight s s' : tick s = Some s' -> (total_weight (timers s') < total_weight (timers s))%nat.
Proof.
  unfold tick. destruct (pick (timers s)) as [[t r]|] eqn:P; [|discriminate]. intros [= <-].
  rewrite (total_weight_perm _ _ (pick_perm _ _ _ P)). unfold fire.
  destruct (cb t) eqn:C; simpl; rewrite ?total_weight_app; simpl; unfold weight; rewrite C; lia.
Qed.

(** C37: the timer loop terminates: after as many ticks as the weight of
    the pending callbacks (two per slide-out, one per removal) the queue
    is empty. *)
Theorem drain_terminates fuel s :
  (total_weight (timers s) <= fuel)%nat -> timers (drain fuel s) = [].
Proof.
  revert s; induction fuel as [|f IH]; intros s Hf; simpl.
  - destruct (timers s) as [|t l]; auto. simpl in Hf. unfold weight in Hf. destruct (cb t); lia.
  - destruct (tick s) as [s'|] eqn:T.
    + apply IH. pose proof (tick_weight _ _ T). lia.
    + apply tick_None; auto.
Qed.

(** ** Every toast is owed a callback that removes it *)

Definition pending (s : NState) (i : nat) : Prop :=
  In (StartSlideOut i) (map cb (timers s)) \/ In (RemoveEl i) (map cb (timers s)).

Definition toasts_owed (s : NState) : Prop := forall e, In e (body s) -> pending s (el_id e).

Lemma in_cb_perm c t r l :
  Permutation l (t :: r) -> In c (map cb l) -> c <> cb t -> In c (map cb r).
Proof.
  intros HP Hin Hne. apply (Permutation_map cb) in HP.
  apply (Permutation_in _ HP) in Hin. destruct Hin as [Heq|Hin]; [congruence|exact Hin].
Qed.

Lemma notify_owed m k s : toasts_owed s -> toasts_owed (showNotification m k s).
Proof.
  unfold toasts_owed, pending; simpl. intros H e He. rewrite map_app; simpl.
  apply in_app_or in He as [He|[<-|[]]].
  - destruct (H e He); [left|right]; apply in_or_app; auto.
  - left. apply in_or_app; right; left; reflexivity.
Qed.

Lemma tick_owed s s' : toasts_owed s -> tick s = Some s' -> toasts_owed s'.
Proof.
  unfold tick. destruct (pick (timers s)) as [[t r]|] eqn:P; [|discriminate]. intros H [= <-].
  pose proof (pick_perm _ _ _ P) as HP. unfold fire, toasts_owed, pending in *.
  destruct (cb t) as [i|i] eqn:C; simpl; intros e He.
  - apply in_map_iff in He as (e0 & <- & He0). unfold set_phase.
    rewrite map_app; simpl.
    assert (Hid : el_id (if Nat.eqb (el_id e0) i
                         then mkEl (el_id e0) (el_msg e0) (el_kind e0) SlidingOut else e0) = el_id e0)
      by (destruct (Nat.eqb _ _); reflexivity).
    rewrite Hid. destruct (Nat.eqb_spec (el_id e0) i) as [->|Hne].
    + right. apply in_or_app; right; left; reflexivity.
    + destruct (H e0 He0) as [Hp|Hp]; [left|right]; apply in_or_app; left;
        (eapply in_cb_perm; first [exact HP | exact Hp | (rewrite C; congruence)]).
  - apply filter_In in He as [He Hne]. apply negb_true_iff, Nat.eqb_neq in Hne.
    destruct (H e He) as [Hp|Hp]; [left|right];
      (eapply in_cb_perm; first [exact HP | exact Hp | (rewrite C; congruence)]).
Qed.

(** States of the page and the timer queue: a quiet page, then calls to
    [showNotification] and timer callbacks in any interleaving. *)
Inductive nreach : NState -> Prop :=
| nr_start c n : nreach (mkN c [] [] n)
| nr_notify s m k : nreach s -> nreach (showNotification m k s)
| nr_tick s s' : nreach s -> tick s = Some s' -> nreach s'.

Lemma nreach_owed s : nreach s -> toasts_owed s.
Proof.
  induction 1; [intros e []|apply notify_owed; auto|eapply tick_owed; eauto].
Qed.

Lemma drain_owed fuel s : toasts_owed s -> toasts_owed (drain fuel s).
Proof.
  revert s; induction fuel as [|f IH]; intros s H; simpl; auto.
  destruct (tick s) eqn:T; auto. apply IH. eapply tick_owed; eauto.
Qed.

(** C38: whatever interleaving of notifications and timer callbacks led
    to a state, running the timer loop for the weight of its queue
    removes every toast from the page: no notification stays on screen,
    and removing an element twice is never needed. *)
Theorem every_toast_removed fuel s :
  nreach s -> (total_weight (timers s) <= fuel)%nat ->
  timers (drain fuel s) = [] /\ body (drain fuel s) = [].
Proof.
  intros Hr Hf. pose proof (drain_terminates fuel s Hf) as Ht. split; auto.
  pose proof (drain_owed fuel s (nreach_owed s Hr)) as Ho.
  destruct (body (drain fuel s)) as [|e l] eqn:B; auto.
  exfalso. destruct (Ho e) as [H|H]; [rewrite B; left; auto| |]; rewrite Ht in H; destruct H.
Qed.

(** a toast shown at time [c] on a quiet page starts sliding out at
    [c + 3000], is removed at [c + 3300], and then no callback is left. *)
Theorem single_toast_timeline c n m k :
  let s1 := showNotification m k (mkN c [] [] n) in
  exists s2 s3,
    tick s1 = Some s2 /\ clock s2 = c + 3000 /\ body s2 = [mkEl n m k SlidingOut] /\
    tick s2 = Some s3 /\ clock s3 = c + 3300 /\ body s3 = [] /\ tick s3 = None.
Proof.
  simpl. unfold tick, pick, fire, set_phase; simpl.
  repeat progress (rewrite ?Z.eqb_refl, ?Nat.eqb_refl; simpl).
  eexists; eexists. split; [reflexivity|]. simpl.
  repeat progress (rewrite ?Z.eqb_refl, ?Nat.eqb_refl; simpl).
  repeat split; try reflexivity. simpl. lia.
Qed.

Lemma drain_terminates_witness :
  timers (drain 4 (showNotification (js "b") Info (showNotification (js "a") Success (mkN 0 [] [] 0)))) = [].
Proof. apply drain_terminates. simpl. lia. Defined.

Lemma every_toast_removed_witness :
  let s := showNotification (js "Comment added!") Info (mkN 0 [] [] 0) in
  timers (drain 2 s) = [] /\ body (drain 2 s) = [].
Proof. apply every_toast_removed; [apply nr_notify, nr_start|simpl; lia]. Defined.

End Notify.
