(* ===== verification/Ui.v ===== *)
(** The UI components of [LinkUpApp] other than the feed: the theme
    ([currentTheme], [setupTheme], [toggleTheme], src/script.js lines 5,
    31-56), navigation ([setActiveNav], 94-126), follow buttons
    ([handleFollow], 230-239), keyboard shortcuts
    ([handleKeyboardShortcuts], 264-277) and the image modal
    ([openModal], [closeModal] and the backdrop listener, 80-83,
    254-261).  The theme is a step relation with its invariant proved by
    rule induction; navigation is proved to activate exactly one button
    and show exactly one view. *)

From Stdlib Require Import String.
From Stdlib Require Import List Bool ZArith Lia.
From S2P Require Import Prelude JsString.
Import ListNotations.
Local Open Scope Z_scope.

Module Theme.

Record ThemeState := mkTheme {
  currentTheme : jstr;          (* this.currentTheme *)
  data_theme : option jstr;     (* data-theme attribute of <html> *)
  icon_class : jstr;            (* className of the toggle's <i> *)
  stored : option jstr          (* localStorage.getItem('theme') *)
}.

Definition light := js "light".
Definition dark := js "dark".

(** The icon branch shared by lines 36-40 and 51-55. *)
Definition icon_for (t : jstr) : jstr :=
  if jstr_eqb t dark then js "fas fa-sun" else js "fas fa-moon".

(** Line 5: [localStorage.getItem('theme') || 'light']; [null] and the
    empty string are falsy. *)
Definition initial_theme (stored : option jstr) : jstr :=
  match stored with Some ((_ :: _) as t) => t | _ => light end.

(** Lines 31-41. *)
Definition setupTheme (s : ThemeState) : ThemeState :=
  mkTheme (currentTheme s) (Some (currentTheme s)) (icon_for (currentTheme s)) (stored s).

(** Constructor then [setupTheme] on a page whose storage holds [st]. *)
Definition load (st : option jstr) : ThemeState :=
  setupTheme (mkTheme (initial_theme st) None (js "fas fa-moon") st).

(** Lines 43-56. *)
Definition toggleTheme (s : ThemeState) : ThemeState :=
  let t := if jstr_eqb (currentTheme s) light then dark else light in
  mkTheme t (Some t) (icon_for t) (Some t).

(** Theme events: a click on the toggle, or a page reload that keeps
    [localStorage]. *)
Inductive theme_step : ThemeState -> ThemeState -> Prop :=
| ts_toggle s : theme_step s (toggleTheme s)
| ts_reload s : theme_step s (load (stored s)).

Inductive theme_reach : ThemeState -> Prop :=
| tr_start st : theme_reach (load st)
| tr_step s s' : theme_reach s -> theme_step s s' -> theme_reach s'.

(** The page agrees with [currentTheme]: attribute equal, sun icon
    exactly in dark mode. *)
Definition theme_consistent (s : ThemeState) : Prop :=
  data_theme s = Some (currentTheme s) /\ icon_class s = icon_for (currentTheme s).

(** C32: in every reachable theme state (start-up from any stored value,
    then toggles and reloads in any order) the [data-theme] attribute
    equals [currentTheme] and the icon is the sun exactly in dark mode. *)
Theorem theme_reach_consistent s : theme_reach s -> theme_consistent s.
Proof.
  induction 1 as [st|s s' _ _ Hstep]; [split; reflexivity|].
  destruct Hstep; split; reflexivity.
Qed.

(** after a toggle the stored preference is the new theme, so a
    reload shows the same theme; two toggles from light or dark return
    to it. *)
Theorem toggle_persists s :
  currentTheme (load (stored (toggleTheme s))) = currentTheme (toggleTheme s) /\
  (currentTheme s = light \/ currentTheme s = dark ->
   currentTheme (toggleTheme (toggleTheme s)) = currentTheme s).
Proof.
  unfold toggleTheme; simpl. split.
  - destruct (jstr_eqb (currentTheme s) light); reflexivity.
  - intros [-> | ->]; reflexivity.
Qed.

(** C33: a stored value other than "light", "dark" and the empty string
    is taken as the theme as it is: the page gets [data-theme] set to
    it with the moon icon, and the first toggle goes to light, not dark;
    nothing stored, or the empty string, gives light. *)
Theorem unknown_stored_theme t :
  t <> [] -> t <> light -> t <> dark ->
  currentTheme (load (Some t)) = t /\ data_theme (load (Some t)) = Some t /\
  icon_class (load (Some t)) = js "fas fa-moon" /\
  currentTheme (toggleTheme (load (Some t))) = light /\
  currentTheme (load None) = light /\ currentTheme (load (Some [])) = light.
Proof.
  intros Hn Hl Hd. destruct t as [|c cs]; [congruence|].
  assert (Ed : jstr_eqb (c :: cs) dark = false)
    by (apply Bool.not_true_iff_false; rewrite jstr_eqb_spec; exact Hd).
  assert (El : jstr_eqb (c :: cs) light = false)
    by (apply Bool.not_true_iff_false; rewrite jstr_eqb_spec; exact Hl).
  unfold load, setupTheme, toggleTheme, icon_for. cbn [initial_theme currentTheme data_theme icon_class].
  rewrite Ed, El. repeat split.
Qed.

Lemma theme_reach_consistent_witness : theme_consistent (toggleTheme (load None)).
Proof.
  apply theme_reach_consistent. eapply tr_step; [apply (tr_start None)|apply ts_toggle].
Defined.

Lemma unknown_stored_theme_witness :
  currentTheme (toggleTheme (load (Some (js "blue")))) = light.
Proof.
  assert (H1 : js "blue" <> []) by discriminate.
  assert (H2 : js "blue" <> light) by (unfold light; discriminate).
  assert (H3 : js "blue" <> dark) by (unfold dark; discriminate).
  exact (proj1 (proj2 (proj2 (proj2 (unknown_stored_theme (js "blue") H1 H2 H3))))).
Defined.

Lemma toggle_persists_witness :
  currentTheme (toggleTheme (toggleTheme (load None))) = currentTheme (load None).
Proof. apply (proj2 (toggle_persists (load None))). left; reflexivity. Defined.

End Theme.

Module Nav.

(** The elements [setActiveNav] touches: the [.nav-btn] buttons by id
    with their [active] class, and the [.view-section] elements by id
    with whether they are displayed. *)
Record NavDom := mkNav { nav_btns : list (jstr * bool); views : list (jstr * bool) }.

(** The [viewMap] object of lines 101-107. *)
Definition viewMap (item : jstr) : option jstr :=
  if jstr_eqb item (js "home") then Some (js "homeView")
  else if jstr_eqb item (js "explore") then Some (js "exploreView")
  else if jstr_eqb item (js "notifications") then Some (js "notificationsView")
  else if jstr_eqb item (js "messages") then Some (js "messagesView")
  else if jstr_eqb item (js "profile") then Some (js "profileView")
  else None.

(** [document.getElementById(i)] then a write: the first element with
    the id, if any. *)
Definition set_by_id (i : jstr) (v : bool) (l : list (jstr * bool)) : list (jstr * bool) :=
  update_first (fun e => jstr_eqb (fst e) i) (fun e => (fst e, v)) l.

(** Lines 94-126 on the DOM; the boolean is whether [renderPosts()] runs
    (only for [home], line 118). *)
Definition setActiveNav (item : jstr) (d : NavDom) : NavDom * bool :=
  let btns := set_by_id (item ++ js "Btn") true (map (fun e => (fst e, false)) (nav_btns d)) in
  let hidden := map (fun e => (fst e, false)) (views d) in
  let vs := match viewMap item with Some v => set_by_id v true hidden | None => hidden end in
  (mkNav btns vs, jstr_eqb item (js "home")).

Lemma filter_snd_cleared (l : list (jstr * bool)) :
  filter snd (map (fun e => (fst e, false)) l) = [].
Proof. induction l; simpl; auto. Qed.

Lemma set_by_id_single i (l : list (jstr * bool)) :
  In i (map fst l) ->
  filter snd (set_by_id i true (map (fun e => (fst e, false)) l)) = [(i, true)].
Proof.
  induction l as [|[j b] t IH]; simpl; [tauto|]. intros Hin.
  unfold set_by_id in *; simpl. destruct (jstr_eqb j i) eqn:E; simpl.
  - apply jstr_eqb_spec in E; subst. rewrite filter_snd_cleared. reflexivity.
  - apply IH. destruct Hin as [->|Hin]; [rewrite jstr_eqb_refl in E; discriminate|exact Hin].
Qed.

(** C34: choosing one of the five sections, on a page that has its
    button and its view, leaves exactly one active nav button (that
    section's) and exactly one displayed view (the one [viewMap] names),
    and re-renders the feed exactly for [home]. *)
Theorem setActiveNav_exactly_one item v d :
  viewMap item = Some v ->
  In (item ++ js "Btn") (map fst (nav_btns d)) -> In v (map fst (views d)) ->
  filter snd (nav_btns (fst (setActiveNav item d))) = [(item ++ js "Btn", true)] /\
  filter snd (views (fst (setActiveNav item d))) = [(v, true)] /\
  snd (setActiveNav item d) = jstr_eqb item (js "home").
Proof.
  intros Hv Hb Hw. unfold setActiveNav. rewrite Hv. simpl.
  split; [apply set_by_id_single; auto|]. split; [apply set_by_id_single; auto|reflexivity].
Qed.

Definition page_nav : NavDom :=
  mkNav [(js "homeBtn", true); (js "exploreBtn", false); (js "notificationsBtn", false);
         (js "messagesBtn", false); (js "profileBtn", false)]
        [(js "homeView", true); (js "exploreView", false); (js "notificationsView", false);
         (js "messagesView", false); (js "profileView", false)].

Lemma setActiveNav_exactly_one_witness :
  filter snd (nav_btns (fst (setActiveNav (js "explore") page_nav))) = [(js "exploreBtn", true)].
Proof.
  apply (setActiveNav_exactly_one (js "explore") (js "exploreView") page_nav); simpl; auto 7.
Defined.

End Nav.

Module Follow.

(** A follow button: its [textContent] and inline background. *)
Record FollowButton := mkFollow { label : jstr; background : option jstr }.

(** Lines 230-239; the message is the notification it shows. *)
Definition handleFollow (b : FollowButton) : FollowButton * jstr :=
  let isFollowing := jstr_eqb (label b) (js "Following") in
  (mkFollow (if isFollowing then js "Follow" else js "Following")
            (Some (if isFollowing then js "var(--accent-color)" else js "var(--success-color)")),
   if isFollowing then js "Unfollowed user" else js "Now following user").

(** clicks alternate: from "Follow" a click follows (label
    "Following", success color, "Now following user") and the next
    unfollows (label "Follow", accent color, "Unfollowed user"); any
    label other than "Following" counts as not following. *)
Theorem handleFollow_alternates b :
  label b <> js "Following" ->
  handleFollow b = (mkFollow (js "Following") (Some (js "var(--success-color)")), js "Now following user") /\
  handleFollow (fst (handleFollow b))
    = (mkFollow (js "Follow") (Some (js "var(--accent-color)")), js "Unfollowed user").
Proof.
  intros H.
  assert (E : jstr_eqb (label b) (js "Following") = false).
  { destruct (jstr_eqb (label b) (js "Following")) eqn:E; [|reflexivity].
    apply jstr_eqb_spec in E. contradiction. }
  unfold handleFollow. rewrite E. split; reflexivity.
Qed.

Lemma handleFollow_alternates_witness :
  handleFollow (mkFollow (js "Follow") None)
  = (mkFollow (js "Following") (Some (js "var(--success-color)")), js "Now following user").
Proof. apply handleFollow_alternates. discriminate. Defined.

End Follow.

Module Keyboard.

Record KeyEvent := mkKey { ctrlKey : bool; metaKey : bool; key : jstr }.

(** What a [keydown] does: whether [preventDefault] is called and which
    element gets the focus. *)
Record KeyEffect := mkEffect { prevented : bool; focus : option jstr }.

(** Lines 264-277. *)
Definition handleKeyboardShortcuts (e : KeyEvent) : KeyEffect :=
  if ctrlKey e || metaKey e then
    if jstr_eqb (key e) (js "k") then mkEffect true (Some (js "searchInput"))
    else if jstr_eqb (key e) (js "n") then mkEffect true (Some (js "postText"))
    else mkEffect false None
  else mkEffect false None.

(** C35: a key press has an effect exactly when Ctrl or Meta is held and
    the key is the lowercase "k" (focus search) or "n" (focus the
    composer); the comparison is case-sensitive, so with Shift held
    ("K") nothing happens. *)
Theorem shortcut_spec e :
  handleKeyboardShortcuts e <> mkEffect false None <->
  (ctrlKey e = true \/ metaKey e = true) /\ (key e = js "k" \/ key e = js "n").
Proof.
  unfold handleKeyboardShortcuts.
  destruct (ctrlKey e || metaKey e) eqn:M.
  - apply orb_true_iff in M.
    destruct (jstr_eqb (key e) (js "k")) eqn:Ek; [|destruct (jstr_eqb (key e) (js "n")) eqn:En].
    + apply jstr_eqb_spec in Ek. split; [intros _; split; [exact M|left; exact Ek]|intros _; discriminate].
    + apply jstr_eqb_spec in En. split; [intros _; split; [exact M|right; exact En]|intros _; discriminate].
    + split; [intros H; exfalso; apply H; reflexivity|].
      intros [_ [Hk|Hn]]; [rewrite Hk in Ek|rewrite Hn in En]; rewrite jstr_eqb_refl in *; discriminate.
  - apply orb_false_iff in M as [Mc Mm]. split; [intros H; exfalso; apply H; reflexivity|].
    intros [[H|H] _]; congruence.
Qed.

End Keyboard.

Module Modal.

Record ModalState := mkModal { modal_src : jstr; modal_display : jstr }.

(** Lines 254-257. *)
Definition openModal (src : jstr) (m : ModalState) : ModalState := mkModal src (js "block").
(** Lines 259-261. *)
Definition closeModal (m : ModalState) : ModalState := mkModal (modal_src m) (js "none").
(** Lines 81-83: a click on the modal closes it only when the click
    target is the backdrop itself. *)
Definition onModalClick (target_id : jstr) (m : ModalState) : ModalState :=
  if jstr_eqb target_id (js "imageModal") then closeModal m else m.

(** a click inside the modal content keeps an open image open, a
    click on the backdrop or the close button hides it and keeps its
    source, and closing twice is closing once. *)
Theorem modal_click_spec src m t :
  t <> js "imageModal" ->
  onModalClick t (openModal src m) = openModal src m /\
  onModalClick (js "imageModal") (openModal src m) = mkModal src (js "none") /\
  closeModal (closeModal m) = closeModal m.
Proof.
  intros Ht. unfold onModalClick. rewrite jstr_eqb_refl. repeat split.
  destruct (jstr_eqb t _) eqn:E; [apply jstr_eqb_spec in E; contradiction|reflexivity].
Qed.

Lemma modal_click_spec_witness :
  onModalClick (js "modalImage") (openModal (js "a.png") (mkModal [] (js "none")))
  = openModal (js "a.png") (mkModal [] (js "none")).
Proof. apply (modal_click_spec (js "a.png") (mkModal [] (js "none")) (js "modalImage")). discriminate. Defined.

End Modal.
