(* ===== verification/Page.v ===== *)
(** The whole page: the [LinkUpApp] instance with every listener that
    [setupEventListeners] (src/script.js lines 59-92) attaches, the inline
    [onclick] handlers of the cards (lines 430-450), the composer helpers
    [addImageToPost], [addEmojiToPost], [addLocationToPost] (154-189) with
    the callbacks they leave pending, and the constructor with [init]
    (3-28).  The state joins the controller's ([Controller.App]), the
    theme, the nav buttons and views, the image modal, the follow
    buttons, the focused element and the browser requests in flight
    (file reads, position requests).  Each event is one listener run to
    completion, composed from the components' handlers as the code
    composes them.  Theorems: the invariants of every run from start-up,
    what the composer and the other UI events may change, and how many
    tilt closures a run stacks on the elements that stay in the page. *)

From Stdlib Require Import String.
From Stdlib Require Import List Bool ZArith QArith Qround Lia Lqa.
From S2P Require Import Prelude JsString Posts Render App Ui.
Import ListNotations.
Import PostStore Render Controller.

Module Page.

Local Open Scope Z_scope.

Record PageEnv := mkPageEnv {
  app_env : Env;
  has_geolocation : bool        (* navigator.geolocation is defined *)
}.

Record Page := mkPage {
  app : App;
  theme : Theme.ThemeState;
  nav : Nav.NavDom;
  modal : Modal.ModalState;
  follows : list Follow.FollowButton;   (* the .follow-btn buttons, in document order *)
  focused : option jstr;                (* id of the element given the focus *)
  reads : nat;                          (* FileReader reads not yet loaded *)
  geo : nat                             (* getCurrentPosition requests not yet answered *)
}.

(** The array of line 173, as UTF-16 code units. *)
Definition emojis : list jstr :=
  [[55357; 56832]; [55357; 56834]; [10084; 65039]; [55357; 56397]; [55356; 57225];
   [55357; 56613]; [55357; 56495]; [10024]; [55357; 56960]; [55357; 56481]].

(** [emojis[Math.floor(Math.random() * emojis.length)]] for the draw [r]. *)
Definition randomEmoji (r : Q) : jstr :=
  nth (Z.to_nat (Qfloor (r * 10))) emojis [].

Inductive PEvent :=
| PType (text : jstr)                  (* typing in #postText *)
| PThemeToggle                         (* #themeToggle click *)
| PNav (item : jstr) (now : Z)         (* a nav button click *)
| PPublish (now : Z)                   (* #publishBtn click *)
| PAddImage                            (* #addImageBtn click: a file picker opens *)
| PFileChosen (has_file : bool)        (* input.onchange, files[0] present or not *)
| PFileLoaded                          (* reader.onload *)
| PAddEmoji (r : Q)                    (* #addEmojiBtn click, Math.random() = r *)
| PAddLocation                         (* #addLocationBtn click *)
| PGeoSuccess                          (* the getCurrentPosition success callback *)
| PGeoError                            (* the position request fails *)
| PSearch (query : jstr) (now : Z)     (* #searchInput input *)
| PCloseBtn                            (* .close click *)
| PModalClick (target_id : jstr)       (* #imageModal click, e.target.id *)
| PFollow (i : nat)                    (* click on the i-th .follow-btn *)
| PKey (e : Keyboard.KeyEvent)         (* document keydown *)
| PCardClick (i : nat) (a : Action) (now : Z)
    (* onclick="app.handlePostAction('like', ${post.id})" of the i-th card *)
| PImageClick (i : nat).               (* onclick="app.openModal('${post.image}')" *)

(** The [i]-th card of [#postsFeed]. *)
Definition feed_card (f : Feed) (i : nat) : option PostCard :=
  match f with NoPosts => None | Cards cs => nth_error cs i end.

(** The URL in [app.openModal('...')] is read back as written when it
    holds no quote: a single quote (39) ends the JS string and a double
    quote (34) the attribute, and the handler is then a syntax error
    that does nothing. *)
Definition sq_literal_ok (u : jstr) : bool :=
  forallb (fun c => negb ((c =? 39) || (c =? 34))) u.

Section Handlers.
Variable penv : PageEnv.

Definition set_app (a : App) (p : Page) : Page :=
  mkPage a (theme p) (nav p) (modal p) (follows p) (focused p) (reads p) (geo p).

Definition notify (msg : jstr) (k : NoteKind) (p : Page) : Page :=
  set_app (showNotification msg k (app p)) p.

(** Lines 94-126: buttons and views, [renderPosts()] of the whole store
    for [home], then [setup3DEnvironment()] (style writes only) and
    [enableTiltEffects()]. *)
Definition page_setActiveNav (item : jstr) (now : Z) (p : Page) : Page :=
  let (d, rerender) := Nav.setActiveNav item (nav p) in
  let a := if rerender then render (app_env penv) now (posts (app p)) (app p) else app p in
  mkPage (bump_tilt a) (theme p) d (modal p) (follows p) (focused p) (reads p) (geo p).

(** Lines 172-178. *)
Definition addEmojiToPost (r : Q) (p : Page) : Page :=
  let a := set_postText (postText (app p) ++ randomEmoji r) (app p) in
  mkPage a (theme p) (nav p) (modal p) (follows p) (Some (js "postText")) (reads p) (geo p).

(** Lines 180-188: with geolocation a request is left pending; without
    it the warning is shown at once. *)
Definition addLocationToPost (p : Page) : Page :=
  if has_geolocation penv
  then mkPage (app p) (theme p) (nav p) (modal p) (follows p) (focused p) (reads p) (S (geo p))
  else notify (js "Location services not available") Warning p.

(** Lines 158-167: [onchange] starts a read when a file was chosen. *)
Definition onFileChosen (has_file : bool) (p : Page) : Page :=
  if has_file
  then mkPage (app p) (theme p) (nav p) (modal p) (follows p) (focused p) (S (reads p)) (geo p)
  else p.

(** Lines 162-165: [reader.onload]. *)
Definition onFileLoaded (p : Page) : Page :=
  match reads p with
  | O => p
  | S n => notify (js "Image added to post!") Info
             (mkPage (app p) (theme p) (nav p) (modal p) (follows p) (focused p) n (geo p))
  end.

(** Line 183: the success callback; the request has no error callback,
    so a failure ends the request with nothing shown. *)
Definition onGeo (success : bool) (p : Page) : Page :=
  match geo p with
  | O => p
  | S n =>
      let p1 := mkPage (app p) (theme p) (nav p) (modal p) (follows p) (focused p) (reads p) n in
      if success then notify (js "Location added to post!") Info p1 else p1
  end.

(** Line 88 and lines 230-239: the clicked button and its notification. *)
Definition page_follow (i : nat) (p : Page) : Page :=
  match nth_error (follows p) i with
  | None => p
  | Some b =>
      let (b', msg) := Follow.handleFollow b in
      notify msg Info
        (mkPage (app p) (theme p) (nav p) (modal p) (set_nth i b' (follows p)) (focused p) (reads p) (geo p))
  end.

(** Line 91 and lines 264-277. *)
Definition page_key (e : Keyboard.KeyEvent) (p : Page) : Page :=
  match Keyboard.focus (Keyboard.handleKeyboardShortcuts e) with
  | None => p
  | Some id => mkPage (app p) (theme p) (nav p) (modal p) (follows p) (Some id) (reads p) (geo p)
  end.

Definition set_modal (m : Modal.ModalState) (p : Page) : Page :=
  mkPage (app p) (theme p) (nav p) m (follows p) (focused p) (reads p) (geo p).

(** Lines 436-449: the button's handler is JS source holding the id as
    printed by the template; it runs [handlePostAction] on the number
    that source denotes. *)
Definition card_click (i : nat) (a : Action) (now : Z) (p : Page) : Page :=
  match feed_card (feed (app p)) i with
  | None => p
  | Some c =>
      match parse_int_literal (card_post_id c) with
      | Some pid => set_app (step (app_env penv) (EvPostAction a pid now) (app p)) p
      | None => p
      end
  end.

(** Line 433: a click on a post image. *)
Definition image_click (i : nat) (p : Page) : Page :=
  match feed_card (feed (app p)) i with
  | Some c =>
      match card_image c with
      | Some u => if sq_literal_ok u then set_modal (Modal.openModal u (modal p)) p else p
      | None => p
      end
  | None => p
  end.

Definition pstep (e : PEvent) (p : Page) : Page :=
  match e with
  | PType t => set_app (step (app_env penv) (EvType t) (app p)) p
  | PThemeToggle =>
      mkPage (app p) (Theme.toggleTheme (theme p)) (nav p) (modal p) (follows p) (focused p) (reads p) (geo p)
  | PNav item now => page_setActiveNav item now p
  | PPublish now => set_app (step (app_env penv) (EvPublish now) (app p)) p
  | PAddImage => p
  | PFileChosen b => onFileChosen b p
  | PFileLoaded => onFileLoaded p
  | PAddEmoji r => addEmojiToPost r p
  | PAddLocation => addLocationToPost p
  | PGeoSuccess => onGeo true p
  | PGeoError => onGeo false p
  | PSearch q now => set_app (step (app_env penv) (EvSearch q now) (app p)) p
  | PCloseBtn => set_modal (Modal.closeModal (modal p)) p
  | PModalClick t => set_modal (Modal.onModalClick t (modal p)) p
  | PFollow i => page_follow i p
  | PKey e => page_key e p
  | PCardClick i a now => card_click i a now p
  | PImageClick i => image_click i p
  end.

Fixpoint prun (es : list PEvent) (p : Page) : Page :=
  match es with [] => p | e :: es' => prun es' (pstep e p) end.

(** The constructor and [init] on a page whose [localStorage] holds
    [stored], with the given follow buttons, at time [now]. *)
Definition page_init (stored : option jstr) (btns : list Follow.FollowButton) (now : Z) : Page :=
  mkPage (init (app_env penv) now) (Theme.load stored) Nav.page_nav
    (Modal.mkModal [] []) btns None O O.

End Handlers.

(** ** Invariants of the page *)

Section Facts.
Variable penv : PageEnv.
Let env := app_env penv.

(** The controller state is the one start-up and the store operations
    reach: the signed-in user unchanged, the store reachable, the feed
    a render of part of the store. *)
(** The events whose handlers write [this.posts]. *)
Definition changes_store (e : PEvent) : bool :=
  match e with PPublish _ | PCardClick _ _ _ => true | _ => false end.

Definition app_ok (a : App) : Prop :=
  current_user a = currentUser /\ reachable (posts a) /\ feed_current env a.

Definition page_ok (p : Page) : Prop := app_ok (app p) /\ Theme.theme_consistent (theme p).

Lemma app_ok_frame a a' :
  app_ok a -> posts a' = posts a -> current_user a' = current_user a -> feed a' = feed a -> app_ok a'.
Proof.
  intros (Hu & Hr & t & l & Hs & Hf) Hp Hc Hfe. unfold app_ok, feed_current.
  rewrite Hp, Hc, Hfe. repeat split; auto. exists t, l. auto.
Qed.

Lemma app_ok_step e a : app_ok a -> app_ok (step env e a).
Proof.
  intros (Hu & Hr & Hf). repeat split.
  - rewrite current_user_step. exact Hu.
  - apply step_reachable; auto.
  - apply step_feed_current; auto.
Qed.

Lemma app_ok_notify m k a : app_ok a -> app_ok (showNotification m k a).
Proof. intros H. apply (app_ok_frame a); auto. Qed.

Lemma app_ok_bump a : app_ok a -> app_ok (bump_tilt a).
Proof. intros H. apply (app_ok_frame a); auto. Qed.

Lemma app_ok_render_all now a : app_ok a -> app_ok (render env now (posts a) a).
Proof.
  intros (Hu & Hr & Hf). unfold app_ok, feed_current.
  rewrite posts_render, current_user_render, feed_render. repeat split; auto.
  exists now, (posts a). split; [apply subseq_refl|reflexivity].
Qed.

Lemma app_ok_set_postText t a : app_ok a -> app_ok (set_postText t a).
Proof. intros H. apply (app_ok_frame a); auto. Qed.

Lemma theme_consistent_toggle t : Theme.theme_consistent (Theme.toggleTheme t).
Proof. split; reflexivity. Qed.

#[local] Hint Resolve app_ok_step app_ok_notify app_ok_bump app_ok_render_all app_ok_set_postText
  theme_consistent_toggle : linkup.

(** Case on every [match] and [if] of a page handler. *)
Ltac destr_goal := repeat match goal with |- context [match ?x with _ => _ end] => destruct x end.

Ltac unfold_handlers :=
  unfold page_setActiveNav, onFileChosen, onFileLoaded, addLocationToPost, onGeo, page_follow,
    page_key, addEmojiToPost, card_click, image_click, notify, set_app, set_modal.

Lemma pstep_ok e p : page_ok p -> page_ok (pstep penv e p).
Proof.
  intros [Ha Ht]. destruct e; cbn [pstep];
    unfold_handlers;
    destr_goal; split; cbn [app theme]; auto with linkup.
Qed.

Lemma prun_ok es p : page_ok p -> page_ok (prun penv es p).
Proof. revert p; induction es as [|e es IH]; intros p H; simpl; auto using pstep_ok. Qed.

Lemma page_init_ok stored btns now : page_ok (page_init penv stored btns now).
Proof.
  split; [|split; reflexivity].
  apply app_ok_bump. unfold app_ok. cbn [app page_init].
  rewrite posts_render, current_user_render. repeat split; [apply reach_load|].
  exists now, (loadSampleData now). rewrite feed_render. split; [apply subseq_refl|reflexivity].
Qed.

Lemma follows_pstep e p : length (follows (pstep penv e p)) = length (follows p).
Proof.
  destruct e; cbn [pstep];
    unfold_handlers;
    destr_goal; cbn [follows]; rewrite ?length_set_nth; reflexivity.
Qed.

Lemma follows_prun es p : length (follows (prun penv es p)) = length (follows p).
Proof. revert p; induction es as [|e es IH]; intros p; simpl; [|rewrite IH, follows_pstep]; reflexivity. Qed.

(** C13: along every run of page events from start-up (theme, nav,
    composer, search, modal, follow, keyboard, card buttons and the
    browser callbacks, in any order), the store stays well formed, the
    feed shows the render of part of the current store, the signed-in
    user is unchanged, the theme attribute and icon agree with
    [currentTheme], and the follow buttons are the page's. *)
Theorem page_run_invariants stored btns now es :
  let p := prun penv es (page_init penv stored btns now) in
  store_wf (posts (app p)) /\ feed_current env (app p) /\ current_user (app p) = currentUser /\
  Theme.theme_consistent (theme p) /\ length (follows p) = length btns.
Proof.
  intros p. destruct (prun_ok es _ (page_init_ok stored btns now)) as [(Hu & Hr & Hf) Ht].
  repeat split; auto.
  - apply reachable_wf; auto.
  - apply Ht.
  - apply Ht.
  - unfold p. rewrite follows_prun. reflexivity.
Qed.


Lemma posts_pstep e p : changes_store e = false -> posts (app (pstep penv e p)) = posts (app p).
Proof.
  destruct e; cbn [pstep changes_store]; intros H; try discriminate; unfold_handlers;
    destr_goal; cbn [app step bump_tilt posts]; rewrite ?posts_render; try reflexivity.
  unfold onSearchInput. destr_goal; rewrite ?posts_render; reflexivity.
Qed.

(** C14: the async helpers and the other UI listeners never write the
    store: a run of typing, theme, nav, composer ([addImageToPost],
    [addEmojiToPost], [addLocationToPost] and their callbacks), search,
    modal, follow and keyboard events, in any order, leaves [this.posts]
    as it was; only Publish and the card buttons change it. *)
Theorem ui_events_keep_store es p :
  forallb (fun e => negb (changes_store e)) es = true -> posts (app (prun penv es p)) = posts (app p).
Proof.
  revert p; induction es as [|e es IH]; intros p H; simpl in *; auto.
  apply andb_prop in H as [H1 H2]. rewrite IH by exact H2. apply posts_pstep.
  destruct (changes_store e); [discriminate|reflexivity].
Qed.

Lemma tilt_binds_init now : tilt_binds (init env now) = 2%nat.
Proof. reflexivity. Qed.

Lemma nav_home_step now p :
  posts (app p) <> [] ->
  tilt_binds (app (pstep penv (PNav (js "home") now) p)) = S (S (tilt_binds (app p))).
Proof.
  intros Hne. cbn [pstep]. unfold page_setActiveNav.
  assert (E : snd (Nav.setActiveNav (js "home") (nav p)) = true) by reflexivity.
  destruct (Nav.setActiveNav _ _) as [d r]. cbn [snd] in E. subst r. cbn [app].
  unfold bump_tilt at 1. cbn [tilt_binds]. rewrite tilt_binds_render.
  destruct (posts (app p)); [congruence|reflexivity].
Qed.

(** C30: every click on Home stacks two more tilt closures on each tilt
    element that stays in the page (the nav buttons, the composer, the
    sidebar items): one from [renderPosts] and one from [setActiveNav]
    itself; after start-up (two) and [n] clicks there are [2 + 2n],
    each with its own animation loop. *)
Theorem nav_home_stacks_tilt stored btns now now' n :
  tilt_binds (app (prun penv (repeat (PNav (js "home") now') n) (page_init penv stored btns now)))
  = (2 + 2 * n)%nat.
Proof.
  assert (Hgen : forall k p, posts (app p) <> [] ->
            tilt_binds (app (prun penv (repeat (PNav (js "home") now') k) p)) = (tilt_binds (app p) + 2 * k)%nat).
  { induction k as [|k IH]; intros p Hp; cbn [prun repeat]; [lia|].
    rewrite IH, nav_home_step by (rewrite ?posts_pstep by reflexivity; exact Hp). lia. }
  rewrite Hgen; [reflexivity|]. cbn [app page_init]. unfold init. cbn [posts]. discriminate.
Qed.

(** [Math.floor(r * 10)] for [0 <= r < 1] is an index of the array. *)
Lemma emoji_index (r : Q) : (0 <= r < 1)%Q -> (Z.to_nat (Qfloor (r * 10)) < length emojis)%nat.
Proof.
  intros [H0 H1]. pose proof (Qfloor_le (r * 10)) as Hle. pose proof (Qlt_floor (r * 10)) as Hlt.
  set (z := Qfloor (r * 10)) in *. rewrite inject_Z_plus in Hlt.
  assert (Hz : (z < 10)%Z) by (rewrite Zlt_Qlt; change (inject_Z 10) with (10 # 1); lra).
  simpl. lia.
Qed.

Lemma randomEmoji_In (r : Q) : (0 <= r < 1)%Q -> In (randomEmoji r) emojis.
Proof. intros H. apply nth_In, emoji_index, H. Qed.

(** C36: the composer helpers: the emoji button appends one of the ten
    emoji of the array to the textarea and focuses it; a chosen file,
    once read, shows "Image added to post!"; without geolocation the
    location button warns at once, with it the success callback shows
    "Location added to post!" while a failed request shows nothing. *)
Theorem composer_helpers (r : Q) p :
  (0 <= r < 1)%Q ->
  (exists e, In e emojis /\ postText (app (pstep penv (PAddEmoji r) p)) = postText (app p) ++ e /\
             focused (pstep penv (PAddEmoji r) p) = Some (js "postText")) /\
  toasts (app (pstep penv PFileLoaded (pstep penv (PFileChosen true) p)))
    = toasts (app p) ++ [mkToast (js "Image added to post!") Info] /\
  (has_geolocation penv = false ->
     toasts (app (pstep penv PAddLocation p))
     = toasts (app p) ++ [mkToast (js "Location services not available") Warning]) /\
  (has_geolocation penv = true ->
     toasts (app (pstep penv PGeoSuccess (pstep penv PAddLocation p)))
       = toasts (app p) ++ [mkToast (js "Location added to post!") Info] /\
     toasts (app (pstep penv PGeoError (pstep penv PAddLocation p))) = toasts (app p)).
Proof.
  intros Hr. split; [exists (randomEmoji r); split; [apply randomEmoji_In, Hr|split; reflexivity]|].
  split; [reflexivity|].
  split; intros Hg; cbn [pstep]; unfold addLocationToPost; rewrite Hg; [reflexivity|].
  split; reflexivity.
Qed.

(** With distinct ids, the post [find] returns for [q]'s id is [q]. *)
Lemma find_first_distinct_id q ps :
  NoDup (map id ps) -> In q ps -> find_first (has_id (id q)) ps = Some q.
Proof.
  induction ps as [|x ps IH]; simpl; [contradiction|]. intros Hnd Hin.
  inversion Hnd as [|? ? Hx Hnd']; subst. unfold has_id at 1.
  destruct (Z.eqb_spec (id x) (id q)) as [E|E].
  - destruct Hin as [->|Hin]; [reflexivity|].
    exfalso. apply Hx. rewrite E. apply in_map, Hin.
  - destruct Hin as [->|Hin]; [congruence|]. apply IH; auto.
Qed.

Lemma feed_card_render loc t l i q :
  nth_error l i = Some q -> feed_card (renderPosts loc t l) i = Some (createPostElement loc t q).
Proof.
  intros H. destruct l as [|x l]; [destruct i; discriminate|].
  cbn [renderPosts feed_card]. rewrite nth_error_map, H. reflexivity.
Qed.

(** C15: the card buttons act on their own post: the id the template
    prints into a card's [onclick] source reads back as that post's id,
    so a click on the [i]-th card of a feed rendering [l] runs
    [handlePostAction] on the id of the [i]-th post of [l]; when the
    feed shows part of the store and the store's ids are distinct, the
    post the handler finds and mutates is that very post. *)
Theorem card_click_acts_on_post p t l i q a now :
  feed (app p) = renderPosts (toLocaleDateString env) t l ->
  nth_error l i = Some q ->
  pstep penv (PCardClick i a now) p = set_app (handlePostAction env a (id q) now (app p)) p /\
  (subseq l (posts (app p)) -> NoDup (map id (posts (app p))) ->
   find_first (has_id (id q)) (posts (app p)) = Some q).
Proof.
  intros Hf Hq. split.
  - cbn [pstep]. unfold card_click. rewrite Hf, (feed_card_render _ _ _ _ _ Hq).
    cbn [card_post_id createPostElement]. rewrite int_to_dec_literal. reflexivity.
  - intros Hs Hnd. apply find_first_distinct_id; auto.
    eapply subseq_In; [exact Hs|]. eapply nth_error_In, Hq.
Qed.

End Facts.

(** ** Witnesses *)

Definition plain_page_env : PageEnv := mkPageEnv plain_env true.

Lemma card_click_acts_on_post_witness :
  let p := page_init plain_page_env None [] 0 in
  exists q, feed (app p) = renderPosts (fun _ => []) 0 (loadSampleData 0) /\
  nth_error (loadSampleData 0) 1 = Some q /\
  pstep plain_page_env (PCardClick 1 Like 9) p
  = set_app (handlePostAction plain_env Like (id q) 9 (app p)) p.
Proof.
  intros p. eexists. split; [reflexivity|]. split; [reflexivity|].
  exact (proj1 (card_click_acts_on_post plain_page_env p 0 (loadSampleData 0) 1 _ Like 9
                  eq_refl eq_refl)).
Defined.

Lemma ui_events_keep_store_witness :
  let es := [PThemeToggle; PAddEmoji (1 # 2); PNav (js "explore") 0; PSearch (js "goa") 0;
             PAddLocation; PGeoError; PImageClick 0] in
  forallb (fun e => negb (changes_store e)) es = true /\
  posts (app (prun plain_page_env es (page_init plain_page_env None [] 0)))
  = posts (app (page_init plain_page_env None [] 0)).
Proof.
  intros es. split; [reflexivity|]. apply (ui_events_keep_store plain_page_env es). reflexivity.
Defined.

Lemma composer_helpers_witness :
  exists e, In e emojis /\
    postText (app (pstep plain_page_env (PAddEmoji (1 # 2)) (page_init plain_page_env None [] 0)))
    = postText (app (page_init plain_page_env None [] 0)) ++ e.
Proof.
  destruct (proj1 (composer_helpers plain_page_env (1 # 2) (page_init plain_page_env None [] 0)
                     ltac:(split; [apply Qle_bool_iff; reflexivity|reflexivity]))) as (e & Hin & Ht & _).
  exists e. split; assumption.
Defined.

End Page.
